(** * LAHSA bed-utilization dashboard: the reactive update of [LAHSA_Dash.py]

    A shallow embedding of the data loading (lines 15-38) and of the
    callback [update_visuals] (lines 116-247), followed by the properties of
    the selection filter and of the four aggregated views.

    Conventions of the embedding.
    - A data frame is the list of its rows, in row order; a row is a record
      of the columns the program reads.
    - A missing cell (pandas' NaN) of a text column is [None].
    - The utilisation rate is a 64-bit float; its type and the mean of a
      non-empty list of floats belong to the dataframe engine and are the
      section parameters [float] and [fmean].  The geometry of a boundary is
      opaque as well.
    - [PIT Count] and [Total Beds] are whole-number columns (int64); sums
      and differences wrap around as numpy's do.
    - Module globals ([df], [spa_geo]) are a store threaded through a state
      monad; the callback only ever reads them.  A second rendering of the
      callback, [update_visuals_heap], keeps Python's objects and
      references, with the aliasing of line 122 and the assignment in
      place of line 212. *)

From Stdlib Require Import ZArith.
From Stdlib Require QArith.
From Stdlib Require DecimalString DecimalZ.
From stdpp Require Import base tactics option list sorting strings gmap.

Local Open Scope Z_scope.

(** ** Small pandas vocabulary *)

(** [Series.unique()]: distinct values in order of first appearance; a
    missing value is kept (once) like any other. *)
Fixpoint unique `{EqDecision A} (l : list A) : list A :=
  match l with
  | [] => []
  | x :: t => x :: filter (λ y, y ≠ x) (unique t)
  end.

(** [Series.isin(values)]: membership, a missing cell matching a missing
    entry of [values]. *)
Definition isin `{EqDecision A} (values : list A) (x : A) : Prop := x ∈ values.

#[global] Instance isin_dec `{EqDecision A} (values : list A) (x : A) :
  Decision (isin values x).
Proof. unfold isin. apply _. Defined.

(** Truth value of a Python list: non-empty. *)
Definition truthy {A} (l : list A) : bool :=
  match l with [] => false | _ :: _ => true end.

(** int64 arithmetic. *)
Definition wrap64 (z : Z) : Z := (z + 2 ^ 63) mod 2 ^ 64 - 2 ^ 63.

Definition sum_int64 (l : list Z) : Z := wrap64 (foldr Z.add 0 l).

Definition sub_int64 (a b : Z) : Z := wrap64 (a - b).

(** Lexicographic order of the tuples of a two-key [groupby]. *)
Definition pair_le (a b : string * string) : Prop :=
  if decide (a.1 = b.1) then String.le a.2 b.2 else String.le a.1 b.1.

#[global] Instance pair_le_dec : RelDecision pair_le.
Proof. intros a b. unfold pair_le. destruct (decide (a.1 = b.1)); apply _. Defined.

(** [DataFrame.groupby(key)] with the defaults [sort=True], [dropna=True]:
    the groups, by increasing key; rows with a missing key belong to no
    group, and rows keep their order inside a group. *)
Definition groupby `{EqDecision K} (R : relation K) `{!RelDecision R}
    {Row : Type} (key : Row → option K) (rows : list Row) : list (K * list Row) :=
  (λ k, (k, filter (λ r, key r = Some k) rows))
    <$> merge_sort R (unique (omap key rows)).

(** ** Fixed tables (lines 25-34 and 41-50) *)

Definition spa_dict : gmap string string :=
  list_to_map
    [ ("1", "Antelope Valley");
      ("2", "San Fernando Valley");
      ("3", "San Gabriel Valley");
      ("4", "Metro Los Angeles");
      ("5", "West Los Angeles");
      ("6", "South Los Angeles");
      ("7", "East Los Angeles");
      ("8", "South Bay/Harbor") ].

Definition color_mapping : gmap string string :=
  list_to_map
    [ ("Antelope Valley", "#636EFA");
      ("San Fernando Valley", "#EF553B");
      ("San Gabriel Valley", "#00CC96");
      ("Metro Los Angeles", "#AB63FA");
      ("West Los Angeles", "#FFA15A");
      ("South Los Angeles", "#19D3F3");
      ("East Los Angeles", "#FF6692");
      ("South Bay/Harbor", "#B6E880") ].

(** The value of the multi-select control ([multi=True]): a list of option
    values.  The browser sends strings; the callback can write back a
    missing value (see [update_visuals]), hence the [option]. *)
Definition selection : Type := list (option string).

Inductive bed_status : Type := Utilized_Beds | Empty_Beds.

#[global] Instance bed_status_eq_dec : EqDecision bed_status.
Proof. solve_decision. Defined.

Section Dashboard.
Context {geometry float : Type}.
Variable fmean : list float → float.

(** ** Rows *)

(** A row of the housing inventory; [K] is the type of the [SPA] cell:
    [string] as read (after [astype(str)]), [option string] once mapped
    through [spa_dict]. *)
Record bed_row (K : Type) : Type := BedRow {
  SPA : K;
  Housing_Type : option string;
  Utilization_Rate : option float;
  PIT_Count : Z;
  Total_Beds : Z
}.

(** A row of the boundary file. *)
Record geo_row (K : Type) : Type := GeoRow {
  geo_SPA : K;
  geo_geometry : geometry
}.

Global Arguments BedRow {K} _ _ _ _ _.
Global Arguments SPA {K} _.
Global Arguments Housing_Type {K} _.
Global Arguments Utilization_Rate {K} _.
Global Arguments PIT_Count {K} _.
Global Arguments Total_Beds {K} _.
Global Arguments GeoRow {K} _ _.
Global Arguments geo_SPA {K} _.
Global Arguments geo_geometry {K} _.

(** Rows of the intermediate frames of the callback. *)
Record avg_row : Type := AvgRow {          (* grouped, line 125 *)
  avg_SPA : string;
  avg_rate : option float
}.

Record merged_row : Type := MergedRow {    (* merged, line 126 *)
  m_index : nat;
  m_SPA : option string;
  m_geometry : geometry;
  m_rate : option float
}.

Record housing_row : Type := HousingRow {  (* housing_grouped, line 173 *)
  h_SPA : string;
  h_type : string;
  h_rate : option float
}.

Record bedsum_row : Type := BedSumRow {    (* bed_grouped, line 211 *)
  b_SPA : string;
  b_pit : Z;
  b_total : Z
}.

Record bedcount_row : Type := BedCountRow { (* bed_grouped, lines 212-215 *)
  c_SPA : string;
  c_utilized : Z;
  c_total : Z;
  c_empty : Z
}.

Record melted_row : Type := MeltedRow {    (* bed_melted, line 218 *)
  l_SPA : string;
  l_status : bed_status;
  l_count : Z
}.

(** ** Loading (lines 15-38) *)

(** [Series.map(spa_dict)]: a code outside the table becomes missing. *)
Definition resolve (code : string) : option string := spa_dict !! code.

Definition map_bed_SPA {K K'} (f : K → K') (r : bed_row K) : bed_row K' :=
  BedRow (f (SPA r)) (Housing_Type r) (Utilization_Rate r)
         (PIT_Count r) (Total_Beds r).

Definition map_geo_SPA {K K'} (f : K → K') (g : geo_row K) : geo_row K' :=
  GeoRow (f (geo_SPA g)) (geo_geometry g).

(** The module globals after line 38. *)
Record globals : Type := Globals {
  df : list (bed_row (option string));
  spa_geo : list (geo_row (option string))
}.

Definition load (csv : list (bed_row string)) (geojson : list (geo_row string))
    : globals :=
  Globals (map_bed_SPA resolve <$> csv) (map_geo_SPA resolve <$> geojson).

(** ** Aggregations *)

(** [mean] of a float column, missing cells skipped; missing when nothing
    is left. *)
Definition mean_skipna (cells : list (option float)) : option float :=
  match omap id cells with
  | [] => None
  | v :: vs => Some (fmean (v :: vs))
  end.

(** Lines 118-119. *)
Definition expand_all (d : list (bed_row (option string)))
    (selected_values : selection) : selection :=
  if decide (Some "ALL" ∈ selected_values) then unique (SPA <$> d)
  else selected_values.

(** Line 122. *)
Definition filter_df (d : list (bed_row (option string)))
    (selected_values : selection) : list (bed_row (option string)) :=
  if truthy selected_values
  then filter (λ r, isin selected_values (SPA r)) d
  else d.

(** Line 125: [df.groupby('SPA').agg({'Utilization Rate': 'mean'})
    .reset_index()]. *)
Definition group_mean (d : list (bed_row (option string))) : list avg_row :=
  (λ g, AvgRow g.1 (mean_skipna (Utilization_Rate <$> g.2)))
    <$> groupby String.le SPA d.

(** Line 126: [spa_geo.merge(grouped, on 'SPA', how='left')]: every
    boundary row, in order, once per matching row of [grouped], or once
    with a missing rate when nothing matches; the result is numbered
    anew from 0. *)
Definition merge_left (geo : list (geo_row (option string)))
    (grouped : list avg_row) : list merged_row :=
  imap (λ i p, MergedRow i (geo_SPA p.1) (geo_geometry p.1) p.2)
    (g ← geo;
     match filter (λ a, geo_SPA g = Some (avg_SPA a)) grouped with
     | [] => [(g, None)]
     | ms => (λ a, (g, avg_rate a)) <$> ms
     end).

(** Line 127. *)
Definition filter_geo (merged : list merged_row)
    (selected_values : selection) : list merged_row :=
  if truthy selected_values
  then filter (λ m, isin selected_values (m_SPA m)) merged
  else merged.

(** Line 173: both keys must be present for a row to be grouped. *)
Definition housing_key (r : bed_row (option string)) : option (string * string) :=
  s ← SPA r; h ← Housing_Type r; Some (s, h).

Definition group_housing (fd : list (bed_row (option string)))
    : list housing_row :=
  (λ g, HousingRow g.1.1 g.1.2 (mean_skipna (Utilization_Rate <$> g.2)))
    <$> groupby pair_le housing_key fd.

(** Line 211. *)
Definition group_beds (fd : list (bed_row (option string))) : list bedsum_row :=
  (λ g, BedSumRow g.1 (sum_int64 (PIT_Count <$> g.2))
                      (sum_int64 (Total_Beds <$> g.2)))
    <$> groupby String.le SPA fd.

(** Lines 212 and 215: the new column, then the renaming of
    [PIT Count] to [Utilized Beds]. *)
Definition add_empty_beds (b : bedsum_row) : bedcount_row :=
  BedCountRow (b_SPA b) (b_pit b) (b_total b) (sub_int64 (b_total b) (b_pit b)).

(** Line 218: [melt] stacks the value columns one after the other. *)
Definition melt (bed_grouped : list bedcount_row) : list melted_row :=
  ((λ c, MeltedRow (c_SPA c) Utilized_Beds (c_utilized c)) <$> bed_grouped)
  ++ ((λ c, MeltedRow (c_SPA c) Empty_Beds (c_empty c)) <$> bed_grouped).

(** ** Figures

    A figure is what the callback hands to the charting library: the frame
    it plots and the fixed settings of the call and of the layout updates
    (numbers kept as written in the source). *)
Record figure (Row : Type) : Type := Figure {
  fig_data : list Row;
  fig_color_discrete_map : option (gmap string string);
  fig_settings : list (string * string)
}.
Global Arguments Figure {Row} _ _ _.
Global Arguments fig_data {Row} _.
Global Arguments fig_color_discrete_map {Row} _.
Global Arguments fig_settings {Row} _.

Record map_figure : Type := MapFigure {
  map_data : list merged_row;
  map_geojson : list (nat * geometry);   (* filtered_geo.geometry, by index *)
  map_locations : list nat;              (* filtered_geo.index *)
  map_color_discrete_map : gmap string string;
  map_settings : list (string * string)
}.

(** Lines 129-148. *)
Definition choropleth_mapbox (filtered_geo : list merged_row) : map_figure :=
  MapFigure filtered_geo
    ((λ m, (m_index m, m_geometry m)) <$> filtered_geo)
    (m_index <$> filtered_geo)
    color_mapping
    [ ("color", "SPA"); ("hover_name", "SPA");
      ("hover_data", "Utilization Rate");
      ("mapbox_style", "carto-positron");
      ("center.lat", "34.0522"); ("center.lon", "-118.2437");
      ("zoom", "7.35"); ("opacity", "0.75");
      ("showlegend", "False");
      ("margin", "r:5,t:5,l:5,b:5");
      ("paper_bgcolor", "rgba(169,169,169,1)");
      ("plot_bgcolor", "rgba(169,169,169,1)");
      ("modebar_remove",
       "pan2d,select2d,lasso2d,zoomInGeo,zoomOutGeo,hoverClosestGeo,hoverClosestCartesian,hoverCompareCartesian,toggleHover,toImage");
      ("modebar_add", "zoomIn2d,zoomOut2d,resetScale2d") ].

(** Lines 151-166. *)
Definition bar (filtered_geo : list merged_row) : figure merged_row :=
  Figure filtered_geo (Some color_mapping)
    [ ("x", "SPA"); ("y", "Utilization Rate"); ("color", "SPA");
      ("text", "Utilization Rate");
      ("title", "Average Bed Utilization Rate by SPA");
      ("labels.Utilization Rate", "Avg. Utilization Rate  (%)");
      ("texttemplate", "%{text:.1f}"); ("textposition", "outside");
      ("yaxis.range", "[60, 105]"); ("showlegend", "False");
      ("paper_bgcolor", "rgba(169,169,169,1)");
      ("plot_bgcolor", "rgba(169,169,169,1)") ].

(** Lines 170-207. *)
Definition housing_type_bar (housing_grouped : list housing_row)
    : figure housing_row :=
  Figure housing_grouped None
    [ ("x", "SPA"); ("y", "Utilization Rate"); ("color", "Housing Type");
      ("barmode", "group");
      ("title", "Average Bed Utilization Rate by Housing Type by SPA");
      ("labels.Utilization Rate", "Avg. Utilization Rate  (%)");
      ("color_discrete_sequence", "#4D4D4D,#FFFF66,#FFFFFF");
      ("yaxis.tickmode", "linear"); ("yaxis.tick0", "0");
      ("yaxis.dtick", "10"); ("yaxis.gridwidth", "2");
      ("yaxis.gridcolor", "white"); ("yaxis.showgrid", "True");
      ("yaxis.minor.tickmode", "linear"); ("yaxis.minor.tick0", "0");
      ("yaxis.minor.dtick", "5"); ("yaxis.minor.showgrid", "True");
      ("yaxis.minor.gridwidth", "0.5"); ("yaxis.minor.gridcolor", "gray");
      ("paper_bgcolor", "rgba(169,169,169,1)");
      ("plot_bgcolor", "rgba(169,169,169,1)");
      ("legend_title_text", "Housing Type") ].

(** Lines 221-245. *)
Definition bed_count_bar (bed_melted : list melted_row) : figure melted_row :=
  Figure bed_melted None
    [ ("x", "SPA"); ("y", "Bed Count"); ("color", "Bed Status");
      ("barmode", "group");
      ("title", "Count of Bed Utilization by SPA");
      ("color_discrete_sequence", "#4D4D4D,#FFFF66");
      ("yaxis.automargin", "True"); ("yaxis.title", "Bed Count");
      ("yaxis.title_standoff", "10"); ("yaxis.gridcolor", "white");
      ("yaxis.zeroline", "True"); ("yaxis.zerolinewidth", "2");
      ("yaxis.zerolinecolor", "gray");
      ("paper_bgcolor", "rgba(169,169,169,1)");
      ("plot_bgcolor", "rgba(169,169,169,1)");
      ("legend_title_text", "") ].

(** ** The callback *)

(** The five outputs, in the order of the [return] of line 247. *)
Record outputs : Type := Outputs {
  map_fig : map_figure;
  bar_fig : figure merged_row;
  housing_type_bar_fig : figure housing_row;
  bed_count_bar_fig : figure melted_row;
  dropdown_value : selection
}.

(** Computations over the module globals. *)
Definition M (A : Type) : Type := globals → A * globals.

Global Instance M_ret : MRet M := λ A a g, (a, g).
Global Instance M_bind : MBind M := λ A B f m g, let (a, g') := m g in f a g'.

Definition read_df : M (list (bed_row (option string))) := λ g, (df g, g).
Definition read_spa_geo : M (list (geo_row (option string))) :=
  λ g, (spa_geo g, g).

(** Lines 116-247.  Every frame operation of the callback builds a new
    frame; its one update in place (line 212) is on the frame built at
    line 211, which nothing else refers to, so the frames are values here
    and only the reads of the globals go through the store. *)
Definition update_visuals (selected_values : selection) : M outputs :=
  selected_values ←
    (if decide (Some "ALL" ∈ selected_values)
     then d ← read_df; mret (unique (SPA <$> d))
     else mret selected_values);
  filtered_df ← (d ← read_df; mret (filter_df d selected_values));
  grouped ← (d ← read_df; mret (group_mean d));
  merged ← (geo ← read_spa_geo; mret (merge_left geo grouped));
  let filtered_geo := filter_geo merged selected_values in
  let map_fig := choropleth_mapbox filtered_geo in
  let bar_fig := bar filtered_geo in
  let housing_grouped := group_housing filtered_df in
  let housing_type_bar_fig := housing_type_bar housing_grouped in
  let bed_grouped := group_beds filtered_df in
  let bed_grouped := add_empty_beds <$> bed_grouped in
  let bed_melted := melt bed_grouped in
  let bed_count_bar_fig := bed_count_bar bed_melted in
  mret (Outputs map_fig bar_fig housing_type_bar_fig bed_count_bar_fig
          selected_values).

(** The outputs of one invocation from the globals [g]. *)
Definition run (selected_values : selection) (g : globals) : outputs :=
  (update_visuals selected_values g).1.

(** ** Names for the intermediate frames of an invocation *)

Definition selected_of (g : globals) (sel : selection) : selection :=
  expand_all (df g) sel.

Definition filtered_df_of (g : globals) (sel : selection) :=
  filter_df (df g) (selected_of g sel).

Definition merged_of (g : globals) : list merged_row :=
  merge_left (spa_geo g) (group_mean (df g)).

Definition filtered_geo_of (g : globals) (sel : selection) :=
  filter_geo (merged_of g) (selected_of g sel).

Definition bed_table (fd : list (bed_row (option string))) : list bedcount_row :=
  add_empty_beds <$> group_beds fd.

(** ** Vocabulary of the statements *)

(** The records of a region, out of a frame of Bed Records. *)
Definition records_of (d : list (bed_row (option string))) (region : string)
    : list (bed_row (option string)) :=
  filter (λ r, SPA r = Some region) d.

(** Mean utilisation rate of the records of [d] in a region; missing for
    a missing region name. *)
Definition region_mean (d : list (bed_row (option string)))
    (region : option string) : option float :=
  r ← region; mean_skipna (Utilization_Rate <$> records_of d r).

(** The boundary rows with the mean rate over the frame [d] next to each,
    numbered in boundary order. *)
Definition average_table (geo : list (geo_row (option string)))
    (d : list (bed_row (option string)))
    : list merged_row :=
  imap (λ i b, MergedRow i (geo_SPA b) (geo_geometry b) (region_mean d (geo_SPA b)))
    geo.

(** Restriction of a frame with an [SPA] column to a selection, the empty
    selection restricting nothing (lines 122 and 127). *)
Definition selected (sel : selection) (region : option string) : Prop :=
  sel = [] ∨ region ∈ sel.

Global Instance selected_dec sel region : Decision (selected sel region).
Proof. unfold selected. apply _. Defined.

(** The selection-filtered Bed Records of an invocation: the records whose
    region is in the (expanded) selection, all of them when it is empty. *)
Definition selected_records (g : globals) (sel : selection)
    : list (bed_row (option string)) :=
  filter (λ r, selected (selected_of g sel) (SPA r)) (df g).

(** The region names that have a record in a frame, in increasing order. *)
Definition regions_of (d : list (bed_row (option string))) : list string :=
  merge_sort String.le (unique (omap SPA d)).

(** The full sorted set of the region names of the Bed Records, as a
    control value. *)
Definition sorted_region_names (d : list (bed_row (option string))) : selection :=
  Some <$> regions_of d.

(** Bed totals of a region over a frame. *)
Definition utilized_beds (d : list (bed_row (option string))) (region : string) : Z :=
  sum_int64 (PIT_Count <$> records_of d region).

Definition total_beds (d : list (bed_row (option string))) (region : string) : Z :=
  sum_int64 (Total_Beds <$> records_of d region).

Definition empty_beds (d : list (bed_row (option string))) (region : string) : Z :=
  sub_int64 (total_beds d region) (utilized_beds d region).

(** The records of a (region, housing type) pair. *)
Definition pair_records (d : list (bed_row (option string)))
    (region housing : string) : list (bed_row (option string)) :=
  filter (λ r, SPA r = Some region ∧ Housing_Type r = Some housing) d.

(** A control value that is one of the names of [spa_dict]. *)
Definition is_region_name (x : option string) : Prop :=
  ∃ code name, spa_dict !! code = Some name ∧ x = Some name.

(** A row as read whose code is in [spa_dict]. *)
Definition resolved (r : bed_row string) : Prop := is_Some (resolve (SPA r)).

Global Instance resolved_dec r : Decision (resolved r).
Proof. unfold resolved. apply _. Defined.

(** The globals after a series of invocations of the callback. *)
Definition exec (sels : list selection) (g : globals) : globals :=
  foldl (λ g' sel, (update_visuals sel g').2) g sels.

(** ** The rest of the module: reading the files, the dropdown *)

(** A cell of the [SPA] column as parsed from a file: a whole number or a
    text (a column of floats is not modelled). *)
Inductive cell : Type :=
  | IntCell (z : Z)
  | StrCell (s : string).

(** Lines 21-22, [astype(str)]: Python's [str] of a whole number is its
    decimal notation, a text is itself. *)
Definition astype_str (c : cell) : string :=
  match c with
  | IntCell z => DecimalString.NilZero.string_of_int (Z.to_int z)
  | StrCell s => s
  end.

(** Lines 15-38 from the parsed files. *)
Definition read_files (csv : list (bed_row cell)) (geojson : list (geo_row cell))
    : globals :=
  load (map_bed_SPA astype_str <$> csv) (map_geo_SPA astype_str <$> geojson).

(** An entry of the [options] of the dropdown. *)
Record dropdown_option : Type := DropdownOption {
  opt_label : option string;
  opt_value : option string
}.

(** Line 53. *)
Definition dropdown_options (g : globals) : list dropdown_option :=
  [DropdownOption (Some "Select All") (Some "ALL")]
  ++ ((λ spa, DropdownOption spa spa) <$> unique (SPA <$> df g)).

(** Line 82: the value of the dropdown when the page is built. *)
Definition default_value (g : globals) : selection := unique (SPA <$> df g).

(** ** The mean in the words of the specification *)

(** The utilisation rates present among some records, in record order. *)
Definition rates_of (rows : list (bed_row (option string))) : list float :=
  omap Utilization_Rate rows.

(** Their mean: missing when no record has a rate. *)
Definition mean_of_present (rates : list float) : option float :=
  match rates with
  | [] => None
  | _ :: _ => Some (fmean rates)
  end.

(** The table the region averages are read from: one row per boundary, in
    boundary order, with the mean over ALL records of [d] that bear the
    boundary's region name. *)
Definition full_dataset_table (geo : list (geo_row (option string)))
    (d : list (bed_row (option string))) : list merged_row :=
  imap (λ i b,
          MergedRow i (geo_SPA b) (geo_geometry b)
            (region ← geo_SPA b;
             mean_of_present (rates_of (records_of d region))))
    geo.

(** ** The callback over Python's objects

    In Python a data frame is an object and a name holds a reference to it:
    [filtered_df] of line 122 IS [df] when the selection is empty, and
    line 212 assigns a column in place.  Here the objects live in a heap,
    references are positions in it, and every statement of the callback
    that touches a frame goes through the heap.  The library calls are
    taken by their contract: boolean indexing, [groupby().agg()],
    [merge], [rename] and [melt] return a new object and leave their
    operands alone, and the plotting calls read the frame they are given. *)

(** The objects.  A row of a [BedFrame] or of a [SumFrame] carries the
    cell of the column [Empty Beds] next to it once that column has been
    assigned; a [CountFrame] is a [SumFrame] whose column [PIT Count] has
    been renamed to [Utilized Beds]. *)
Inductive frame : Type :=
  | BedFrame (rows : list (bed_row (option string) * option Z))
  | GeoFrame (rows : list (geo_row (option string)))
  | AvgFrame (rows : list avg_row)
  | MergedFrame (rows : list merged_row)
  | HousingFrame (rows : list housing_row)
  | SumFrame (rows : list (bedsum_row * option Z))
  | CountFrame (rows : list (bedsum_row * option Z))
  | MeltedFrame (rows : list melted_row).

Definition heap : Type := list frame.

(** Computations over the heap; [None] is an exception (a [KeyError] for a
    column a frame does not have) or a frame kind the operation is not
    described for. *)
Definition H (A : Type) : Type := heap → option (A * heap).

Global Instance H_ret : MRet H := λ A a h, Some (a, h).
Global Instance H_bind : MBind H :=
  λ A B f m h, match m h with Some (a, h') => f a h' | None => None end.

Definition raise {A} : H A := λ _, None.

(** A new object; its reference is returned. *)
Definition new (f : frame) : H nat := λ h, Some (length h, h ++ [f]).

Definition get (r : nat) : H frame :=
  λ h, match h !! r with Some f => Some (f, h) | None => None end.

(** The object behind a reference is replaced: what every name holding the
    reference sees from then on. *)
Definition put (r : nat) (f : frame) : H unit :=
  λ h, match h !! r with Some _ => Some ((), <[r := f]> h) | None => None end.

Definition bed_rows (r : nat) : H (list (bed_row (option string) * option Z)) :=
  f ← get r; match f with BedFrame rows => mret rows | _ => raise end.

Definition geo_rows (r : nat) : H (list (geo_row (option string))) :=
  f ← get r; match f with GeoFrame rows => mret rows | _ => raise end.

Definition avg_rows (r : nat) : H (list avg_row) :=
  f ← get r; match f with AvgFrame rows => mret rows | _ => raise end.

Definition merged_rows (r : nat) : H (list merged_row) :=
  f ← get r; match f with MergedFrame rows => mret rows | _ => raise end.

Definition housing_rows (r : nat) : H (list housing_row) :=
  f ← get r; match f with HousingFrame rows => mret rows | _ => raise end.

Definition melted_rows (r : nat) : H (list melted_row) :=
  f ← get r; match f with MeltedFrame rows => mret rows | _ => raise end.

(** Line 212, [x['Empty Beds'] = x['Total Beds'] - x['PIT Count']]: the
    object behind [x] gets the column, whichever frame with the two
    columns it is. *)
Definition setitem_empty_beds (r : nat) : H unit :=
  f ← get r;
  match f with
  | BedFrame rows =>
      put r (BedFrame ((λ x, (x.1, Some (sub_int64 (Total_Beds x.1) (PIT_Count x.1))))
                         <$> rows))
  | SumFrame rows =>
      put r (SumFrame ((λ x, (x.1, Some (sub_int64 (b_total x.1) (b_pit x.1))))
                         <$> rows))
  | _ => raise
  end.

(** Line 215, [rename(columns={"PIT Count": "Utilized Beds"})]: a new
    object. *)
Definition rename_pit_count (r : nat) : H nat :=
  f ← get r;
  match f with
  | SumFrame rows => new (CountFrame rows)
  | _ => raise
  end.

(** Line 218: [melt] needs the columns [Utilized Beds] and [Empty Beds]. *)
Definition melt_frame (r : nat) : H nat :=
  f ← get r;
  match f with
  | CountFrame rows =>
      match mapM (λ x, e ← x.2;
                       Some (BedCountRow (b_SPA x.1) (b_pit x.1) (b_total x.1) e))
                 rows with
      | Some counts => new (MeltedFrame (melt counts))
      | None => raise
      end
  | _ => raise
  end.

(** Lines 116-247 statement by statement; [DF] and [GEO] are the
    references the module globals [df] and [spa_geo] hold. *)
Definition update_visuals_heap (DF GEO : nat) (selected_values : selection)
    : H outputs :=
  selected_values ←
    (if decide (Some "ALL" ∈ selected_values)
     then d ← bed_rows DF; mret (unique (SPA <$> d.*1))
     else mret selected_values);
  filtered_df ←
    (if truthy selected_values
     then d ← bed_rows DF;
          new (BedFrame (filter (λ x, isin selected_values (SPA x.1)) d))
     else mret DF);
  grouped ← (d ← bed_rows DF; new (AvgFrame (group_mean d.*1)));
  merged ← (geo ← geo_rows GEO; a ← avg_rows grouped;
            new (MergedFrame (merge_left geo a)));
  filtered_geo ←
    (if truthy selected_values
     then m ← merged_rows merged;
          new (MergedFrame (filter (λ x, isin selected_values (m_SPA x)) m))
     else mret merged);
  map_fig ← (m ← merged_rows filtered_geo; mret (choropleth_mapbox m));
  bar_fig ← (m ← merged_rows filtered_geo; mret (bar m));
  housing_grouped ←
    (d ← bed_rows filtered_df; new (HousingFrame (group_housing d.*1)));
  housing_type_bar_fig ←
    (x ← housing_rows housing_grouped; mret (housing_type_bar x));
  bed_grouped ←
    (d ← bed_rows filtered_df;
     new (SumFrame ((λ b, (b, None)) <$> group_beds d.*1)));
  _ ← setitem_empty_beds bed_grouped;
  bed_grouped ← rename_pit_count bed_grouped;
  bed_melted ← melt_frame bed_grouped;
  bed_count_bar_fig ← (x ← melted_rows bed_melted; mret (bed_count_bar x));
  mret (Outputs map_fig bar_fig housing_type_bar_fig bed_count_bar_fig
          selected_values).

(** The heap holds the loaded datasets behind the two global names. *)
Definition holds_datasets (g : globals) (h : heap) : Prop :=
  h !! 0%nat = Some (BedFrame ((λ r, (r, None)) <$> df g))
  ∧ h !! 1%nat = Some (GeoFrame (spa_geo g)).

(** The heap when the module has been loaded. *)
Definition heap_of (g : globals) : heap :=
  [BedFrame ((λ r, (r, None)) <$> df g); GeoFrame (spa_geo g)].

End Dashboard.

(** ** Sample data

    Rates as exact rationals, geometries as labels. *)

Module Sample.

Definition rate : Type := QArith_base.Q.

Definition q (z : Z) : rate := QArith_base.inject_Z z.

Definition mean (l : list rate) : rate :=
  Qreduction.Qred
    (QArith_base.Qdiv (foldr QArith_base.Qplus (q 0) l)
                      (q (Z.of_nat (length l)))).

Definition csv : list (@bed_row rate string) :=
  [ BedRow "2" (Some "Emergency Shelter") (Some (q 80)) 8 10;
    BedRow "1" (Some "Transitional Housing") (Some (q 80)) 80 100;
    BedRow "2" (Some "Emergency Shelter") (Some (q 90)) 9 10;
    BedRow "2" (Some "Safe Haven") (Some (q 50)) 3 6;
    BedRow "4" (Some "Safe Haven") None 3 5 ].

(** The same file with a row whose code is not in the table. *)
Definition csv9 : list (@bed_row rate string) :=
  csv ++ [ BedRow "9" (Some "Emergency Shelter") (Some (q 50)) 5 10 ].

Definition geojson : list (@geo_row string string) :=
  [ GeoRow "1" "polygon 1"; GeoRow "2" "polygon 2"; GeoRow "3" "polygon 3" ].

Definition g0 : @globals string rate := load csv geojson.

Definition g9 : @globals string rate := load csv9 geojson.

(** The one record of region 1 in [csv], as loaded. *)
Definition row1 : @bed_row rate (option string) :=
  BedRow (Some "Antelope Valley") (Some "Transitional Housing")
         (Some (q 80)) 80 100.

(** The scenario of the specification: regions A (rates 80 and 90) and
    B (rate 70), both with a boundary. *)
Definition scenario : @globals string rate :=
  Globals
    [ BedRow (Some "A") (Some "Emergency Shelter") (Some (q 80)) 8 10;
      BedRow (Some "B") (Some "Emergency Shelter") (Some (q 70)) 7 10;
      BedRow (Some "A") (Some "Safe Haven") (Some (q 90)) 9 10 ]
    [ GeoRow (Some "A") "polygon A"; GeoRow (Some "B") "polygon B" ].

(** The boundary file with a feature whose code is not in the table. *)
Definition geojson9 : list (@geo_row string string) :=
  geojson ++ [ GeoRow "9" "polygon 9" ].

(** A region reporting more occupied beds than beds. *)
Definition crowded : @globals string rate :=
  load [ BedRow "5" (Some "Emergency Shelter") (Some (q 120)) 12 10;
         BedRow "5" (Some "Safe Haven") (Some (q 100)) 4 4 ]
       geojson.

End Sample.

(** * Properties *)

(** ** int64 arithmetic *)

Lemma wrap64_small (z : Z) : - 2 ^ 63 ≤ z < 2 ^ 63 → wrap64 z = z.
Proof. intros Hz. unfold wrap64. rewrite Z.mod_small; lia. Qed.

Lemma wrap64_add_wrap_r (a b : Z) : wrap64 (a + wrap64 b) = wrap64 (a + b).
Proof.
  unfold wrap64. f_equal.
  replace (a + ((b + 2 ^ 63) mod 2 ^ 64 - 2 ^ 63) + 2 ^ 63)
    with (a + (b + 2 ^ 63) mod 2 ^ 64) by lia.
  rewrite Z.add_mod_idemp_r by lia. f_equal. lia.
Qed.

Lemma wrap64_sub_wrap (a b : Z) : wrap64 (wrap64 a - wrap64 b) = wrap64 (a - b).
Proof.
  unfold wrap64. f_equal.
  replace ((a + 2 ^ 63) mod 2 ^ 64 - 2 ^ 63 - ((b + 2 ^ 63) mod 2 ^ 64 - 2 ^ 63)
           + 2 ^ 63)
    with ((a + 2 ^ 63) mod 2 ^ 64 - (b + 2 ^ 63) mod 2 ^ 64 + 2 ^ 63) by lia.
  rewrite <- Z.add_mod_idemp_l by lia.
  rewrite <- Zminus_mod by lia.
  rewrite Z.add_mod_idemp_l by lia. f_equal. lia.
Qed.

Lemma sum_int64_cons (z : Z) (l : list Z) :
  sum_int64 (z :: l) = wrap64 (z + sum_int64 l).
Proof. unfold sum_int64. simpl. by rewrite wrap64_add_wrap_r. Qed.

(** ** Lists: [unique], filters, sorting *)

Section ListFacts.
Context {A : Type}.

Lemma filter_all (P : A → Prop) `{!∀ x, Decision (P x)} (l : list A) :
  (∀ x, x ∈ l → P x) → filter P l = l.
Proof.
  induction l as [|x l IH]; intros Hall; [done|].
  rewrite filter_cons_True by (apply Hall; left).
  f_equal. apply IH. intros y Hy. apply Hall. by right.
Qed.

Lemma filter_none (P : A → Prop) `{!∀ x, Decision (P x)} (l : list A) :
  (∀ x, x ∈ l → ¬ P x) → filter P l = [].
Proof.
  induction l as [|x l IH]; intros Hall; [done|].
  rewrite filter_cons_False by (apply Hall; left).
  apply IH. intros y Hy. apply Hall. by right.
Qed.

Lemma filter_fmap {B} (f : B → A) (P : A → Prop) `{!∀ x, Decision (P x)}
    (l : list B) :
  filter P (f <$> l) = f <$> filter (λ b, P (f b)) l.
Proof.
  induction l as [|b l IH]; [done|].
  rewrite fmap_cons. rewrite !filter_cons.
  destruct (decide (P (f b))); rewrite IH; done.
Qed.

Lemma filter_omap {B} (f : B → option A) (P : A → Prop) (Q : B → Prop)
    `{!∀ x, Decision (P x)} `{!∀ x, Decision (Q x)} (l : list B) :
  (∀ b a, f b = Some a → (Q b ↔ P a)) →
  omap f (filter Q l) = filter P (omap f l).
Proof.
  intros HPQ. induction l as [|b l IH]; [done|].
  rewrite filter_cons. simpl. destruct (f b) as [a|] eqn:Hb.
  - rewrite filter_cons.
    destruct (decide (Q b)) as [HQ|HQ], (decide (P a)) as [HP|HP].
    + simpl. rewrite Hb. by f_equal.
    + destruct HP. by apply (HPQ b a).
    + destruct HQ. by apply (HPQ b a).
    + done.
  - destruct (decide (Q b)); [simpl; rewrite Hb|]; done.
Qed.

Lemma StronglySorted_filter (R : relation A) (P : A → Prop)
    `{!∀ x, Decision (P x)} (l : list A) :
  StronglySorted R l → StronglySorted R (filter P l).
Proof.
  induction 1 as [|x l Hl IH Hx]; [constructor|].
  rewrite filter_cons. destruct (decide (P x)); [|done].
  constructor; [done|].
  apply Forall_forall. intros y [_ Hy]%list_elem_of_filter.
  by eapply Forall_forall in Hx.
Qed.

(** Sorting and filtering commute for a total order. *)
Lemma merge_sort_filter (R : relation A) `{!RelDecision R}
    `{!Transitive R, !AntiSymm (=) R, !Total R}
    (P : A → Prop) `{!∀ x, Decision (P x)} (l : list A) :
  merge_sort R (filter P l) = filter P (merge_sort R l).
Proof.
  apply (StronglySorted_unique R).
  - apply StronglySorted_merge_sort; apply _.
  - apply StronglySorted_filter, StronglySorted_merge_sort; apply _.
  - rewrite !merge_sort_Permutation. done.
Qed.

Context `{!EqDecision A}.

Lemma elem_of_unique (l : list A) (x : A) : x ∈ unique l ↔ x ∈ l.
Proof.
  induction l as [|y l IH]; [done|]. simpl.
  rewrite !elem_of_cons, list_elem_of_filter, IH.
  destruct (decide (x = y)); intuition.
Qed.

Lemma NoDup_unique (l : list A) : NoDup (unique l).
Proof.
  induction l as [|y l IH]; simpl; [constructor|].
  constructor.
  - rewrite list_elem_of_filter. intros [Hne _]. by apply Hne.
  - by apply NoDup_filter.
Qed.

Lemma unique_filter (P : A → Prop) `{!∀ x, Decision (P x)} (l : list A) :
  unique (filter P l) = filter P (unique l).
Proof.
  induction l as [|y l IH]; [done|].
  rewrite filter_cons. simpl. rewrite filter_cons.
  destruct (decide (P y)) as [Hy|Hy]; simpl; rewrite IH.
  - f_equal. rewrite !list_filter_filter.
    apply list_filter_iff. intros x. tauto.
  - symmetry. apply list_filter_filter_l. intros x Hx ->. done.
Qed.

End ListFacts.

Section KeyedLists.
Context `{EqDecision K} {B : Type}.

(** In a list without duplicate keys, a key selects at most one entry. *)
Lemma filter_key_NoDup (f : B → K) (k : K) (l : list B) :
  NoDup (f <$> l) →
  filter (λ b, k = f b) l = [] ∧ k ∉ f <$> l
  ∨ ∃ b, filter (λ b, k = f b) l = [b] ∧ b ∈ l ∧ k = f b.
Proof.
  induction l as [|b l IH]; intros Hnd.
  - left. split; [done|]. simpl. apply not_elem_of_nil.
  - rewrite fmap_cons in Hnd. apply NoDup_cons in Hnd as [Hb Hnd].
    rewrite filter_cons. destruct (decide (k = f b)) as [->|Hk].
    + right. exists b. split; [|split; [left|]; done].
      f_equal. apply filter_none. intros x Hx Hfx.
      apply Hb. rewrite Hfx. by apply list_elem_of_fmap_2.
    + destruct (IH Hnd) as [[Hnil Hnot]|(b' & Hb' & Hin & Hkb)].
      * left. split; [done|]. rewrite fmap_cons, not_elem_of_cons. done.
      * right. exists b'. split; [done|]. split; [by right|done].
Qed.

End KeyedLists.

(** ** [groupby] *)

Section Groupby.
Context `{EqDecision K} (R : relation K) `{!RelDecision R}.
Context {Row : Type} (key : Row → option K).

Lemma groupby_keys (rows : list Row) :
  (groupby R key rows).*1 = merge_sort R (unique (omap key rows)).
Proof.
  unfold groupby. rewrite <- list_fmap_compose.
  rewrite <- (list_fmap_id (merge_sort R _)) at 2. done.
Qed.

(** The keys of the groups are the keys present in the frame... *)
Lemma elem_of_groupby_keys (rows : list Row) (k : K) :
  k ∈ (groupby R key rows).*1 ↔ ∃ r, r ∈ rows ∧ key r = Some k.
Proof.
  rewrite groupby_keys, merge_sort_Permutation, elem_of_unique.
  apply list_elem_of_omap.
Qed.

(** ... each of them once. *)
Lemma NoDup_groupby_keys (rows : list Row) : NoDup (groupby R key rows).*1.
Proof.
  rewrite groupby_keys, merge_sort_Permutation. apply NoDup_unique.
Qed.

(** A group holds exactly the rows of its key, in frame order. *)
Lemma elem_of_groupby (rows : list Row) (g : K * list Row) :
  g ∈ groupby R key rows ↔
  (∃ r, r ∈ rows ∧ key r = Some g.1)
  ∧ g.2 = filter (λ r, key r = Some g.1) rows.
Proof.
  split.
  - intros Hg. split.
    + apply elem_of_groupby_keys. by apply list_elem_of_fmap_2.
    + unfold groupby in Hg. apply list_elem_of_fmap in Hg as (k & -> & _).
      done.
  - intros [Hk Hrows]. apply elem_of_groupby_keys in Hk.
    rewrite groupby_keys in Hk. unfold groupby.
    apply list_elem_of_fmap. exists g.1. split; [|done].
    destruct g as [k rs]. simpl in *. by rewrite Hrows.
Qed.

(** Filtering the rows by a property of their key filters the keys and
    leaves the surviving groups as they were. *)
Lemma groupby_filter_rows (P : Row → Prop) (Pk : K → Prop)
    `{!∀ r, Decision (P r)} `{!∀ k, Decision (Pk k)} (rows : list Row) :
  (∀ r k, key r = Some k → (P r ↔ Pk k)) →
  groupby R key (filter P rows) =
  (λ k, (k, filter (λ r, key r = Some k) rows))
    <$> merge_sort R (filter Pk (unique (omap key rows))).
Proof.
  intros HP. unfold groupby.
  rewrite (filter_omap key Pk P rows HP), unique_filter.
  apply Forall_fmap_ext, Forall_forall. intros k Hk. f_equal.
  rewrite merge_sort_Permutation in Hk.
  apply list_elem_of_filter in Hk as [Hk _].
  apply list_filter_filter_l. intros r Hr. by apply (HP r k).
Qed.

(** Rows without a key do not matter. *)
Lemma groupby_filter_keyed (P : Row → Prop) `{!∀ r, Decision (P r)}
    (rows : list Row) :
  (∀ r k, key r = Some k → P r) →
  groupby R key (filter P rows) = groupby R key rows.
Proof.
  intros HP.
  rewrite (groupby_filter_rows P (λ _, True)) by naive_solver.
  rewrite filter_all; done.
Qed.

Lemma groupby_filter `{!Transitive R, !AntiSymm (=) R, !Total R}
    (P : Row → Prop) (Pk : K → Prop)
    `{!∀ r, Decision (P r)} `{!∀ k, Decision (Pk k)} (rows : list Row) :
  (∀ r k, key r = Some k → (P r ↔ Pk k)) →
  groupby R key (filter P rows) =
  filter (λ g, Pk g.1) (groupby R key rows).
Proof.
  intros HP. rewrite (groupby_filter_rows P Pk rows HP).
  rewrite merge_sort_filter by apply _.
  unfold groupby. by rewrite filter_fmap.
Qed.

End Groupby.

(** ** The frames of the callback *)

Section Frames.
Context {geometry float : Type}.
Variable fmean : list float → float.

Abbreviation bed := (@bed_row float (option string)).
Abbreviation boundary := (@geo_row geometry (option string)).
Abbreviation globals := (@globals geometry float).

Lemma update_visuals_unfold (sel : selection) (g : globals) :
  update_visuals fmean sel g =
  (Outputs (choropleth_mapbox (filtered_geo_of fmean g sel))
           (bar (filtered_geo_of fmean g sel))
           (housing_type_bar (group_housing fmean (filtered_df_of g sel)))
           (bed_count_bar (melt (bed_table (filtered_df_of g sel))))
           (selected_of g sel), g).
Proof.
  unfold update_visuals, filtered_geo_of, filtered_df_of, merged_of,
    selected_of, expand_all, bed_table.
  destruct (decide (Some "ALL" ∈ sel)); reflexivity.
Qed.

Lemma filter_df_unique (d : list bed) : filter_df d (unique (SPA <$> d)) = d.
Proof.
  unfold filter_df. destruct (unique (SPA <$> d)) as [|x l] eqn:Hu; [done|].
  simpl. apply filter_all. intros r Hr. unfold isin.
  rewrite <- Hu, elem_of_unique. by apply list_elem_of_fmap_2.
Qed.

(** With the sentinel in the selection the filter keeps every record. *)
Lemma filter_df_all (d : list bed) (sel : selection) :
  Some "ALL" ∈ sel → filter_df d (expand_all d sel) = d.
Proof.
  intros Hall. unfold expand_all. rewrite decide_True by done.
  apply filter_df_unique.
Qed.

Lemma expand_all_other (d : list bed) (sel : selection) :
  Some "ALL" ∉ sel → expand_all d sel = sel.
Proof. intros Hall. unfold expand_all. by rewrite decide_False. Qed.

Lemma elem_of_group_mean (d : list bed) (a : avg_row) :
  a ∈ group_mean fmean d ↔
  (∃ r, r ∈ d ∧ SPA r = Some (avg_SPA a))
  ∧ avg_rate a = region_mean fmean d (Some (avg_SPA a)).
Proof.
  unfold group_mean. rewrite list_elem_of_fmap. split.
  - intros ([k rs] & -> & Hg). apply elem_of_groupby in Hg as [Hk Hrs].
    simpl in *. split; [done|]. by rewrite Hrs.
  - intros [Hk Hrate]. exists (avg_SPA a, records_of d (avg_SPA a)). split.
    + destruct a as [s v]. simpl in *. by rewrite Hrate.
    + apply elem_of_groupby. done.
Qed.

Lemma group_mean_keys (d : list bed) :
  avg_SPA <$> group_mean fmean d = (groupby String.le SPA d).*1.
Proof.
  unfold group_mean. rewrite <- list_fmap_compose.
  apply list_fmap_ext. done.
Qed.

Lemma NoDup_group_mean (d : list bed) : NoDup (avg_SPA <$> group_mean fmean d).
Proof. rewrite group_mean_keys. apply NoDup_groupby_keys. Qed.

(** The left join of line 126, row by row: the boundary rows with the
    mean over all of [d] for their region. *)
Lemma merge_left_group_mean (geo : list boundary) (d : list bed) :
  merge_left geo (group_mean fmean d) = average_table fmean geo d.
Proof.
  unfold merge_left, average_table.
  trans (imap (λ i (p : boundary * option float),
                 MergedRow i (geo_SPA p.1) (geo_geometry p.1) p.2)
           ((λ b, (b, region_mean fmean d (geo_SPA b))) <$> geo));
    [|by rewrite imap_fmap].
  f_equal. induction geo as [|b geo IH]; [done|].
  rewrite bind_cons, fmap_cons, IH. clear IH.
  change (?x :: ?l) with ([x] ++ l) at 2. f_equal.
  destruct (geo_SPA b) as [r|] eqn:Hb.
  - destruct (filter_key_NoDup (Some ∘ avg_SPA) (Some r) (group_mean fmean d))
      as [[Hnil Hnot]|(a & Ha & Hin & Hr)].
    { rewrite list_fmap_compose. apply (NoDup_fmap_2 _), NoDup_group_mean. }
    + simpl in Hnil. rewrite Hnil. do 2 f_equal. simpl.
      unfold records_of. rewrite filter_none; [done|].
      intros x Hx HS. apply Hnot.
      rewrite list_fmap_compose. apply list_elem_of_fmap_2.
      rewrite group_mean_keys. apply elem_of_groupby_keys. eauto.
    + simpl in Ha, Hr. rewrite Ha. simpl. do 2 f_equal.
      apply elem_of_group_mean in Hin as [_ ->]. by simplify_eq.
  - rewrite filter_none by done. done.
Qed.

Lemma merged_of_spec (g : globals) :
  merged_of fmean g = average_table fmean (spa_geo g) (df g).
Proof. apply merge_left_group_mean. Qed.

Lemma filter_df_selected (d : list bed) (sel : selection) :
  filter_df d sel = filter (λ r, selected sel (SPA r)) d.
Proof.
  unfold filter_df, selected. destruct sel as [|x sel]; simpl.
  - symmetry. apply filter_all. by left.
  - apply list_filter_iff. unfold isin. intros r.
    split; [by right|by intros [?|?]].
Qed.

Lemma filter_geo_selected (t : list (@merged_row geometry float))
    (sel : selection) :
  filter_geo t sel = filter (λ m, selected sel (m_SPA m)) t.
Proof.
  unfold filter_geo, selected. destruct sel as [|x sel]; simpl.
  - symmetry. apply filter_all. by left.
  - apply list_filter_iff. unfold isin. intros r.
    split; [by right|by intros [?|?]].
Qed.

Lemma average_table_SPA (geo : list boundary) (d : list bed) :
  m_SPA <$> average_table fmean geo d = geo_SPA <$> geo.
Proof.
  unfold average_table. rewrite fmap_imap.
  exact (imap_const geo_SPA geo).
Qed.

Lemma elem_of_average_table (geo : list boundary) (d : list bed) m :
  m ∈ average_table fmean geo d ↔
  ∃ i b, geo !! i = Some b ∧
         m = MergedRow i (geo_SPA b) (geo_geometry b) (region_mean fmean d (geo_SPA b)).
Proof.
  unfold average_table. rewrite elem_of_lookup_imap.
  split; intros (i & b & ? & ?); by exists i, b.
Qed.

(** The mean of a group is the mean of the rates present in it. *)
Lemma mean_skipna_present (rows : list bed) :
  mean_skipna fmean (Utilization_Rate <$> rows)
  = mean_of_present fmean (rates_of rows).
Proof.
  unfold mean_skipna, mean_of_present, rates_of.
  assert (omap id (Utilization_Rate <$> rows) = omap Utilization_Rate rows)
    as ->.
  { induction rows as [|r rows IH]; [done|].
    rewrite fmap_cons. csimpl. rewrite IH. done. }
  by destruct (omap Utilization_Rate rows).
Qed.

Lemma average_table_full (geo : list boundary) (d : list bed) :
  average_table fmean geo d = full_dataset_table fmean geo d.
Proof.
  unfold average_table, full_dataset_table. apply imap_ext.
  intros i b _. simpl. f_equal. destruct (geo_SPA b); [|done].
  apply mean_skipna_present.
Qed.

End Frames.

(** ** The callback and its outputs *)

Section Callback.
Context {geometry float : Type}.
Variable fmean : list float → float.

Abbreviation bed := (@bed_row float (option string)).
Abbreviation boundary := (@geo_row geometry (option string)).
Abbreviation globals := (@globals geometry float).

Lemma update_visuals_globals (sel : selection) (g : globals) :
  (update_visuals fmean sel g).2 = g.
Proof. by rewrite update_visuals_unfold. Qed.

Lemma exec_globals (sels : list selection) (g : globals) :
  exec fmean sels g = g.
Proof.
  unfold exec. induction sels as [|sel sels IH] in g |- *; [done|].
  simpl. by rewrite update_visuals_globals.
Qed.

Lemma dropdown_value_run (sel : selection) (g : globals) :
  dropdown_value (run fmean sel g) = selected_of g sel.
Proof. unfold run. by rewrite update_visuals_unfold. Qed.

Lemma filtered_df_of_spec (sel : selection) (g : globals) :
  filtered_df_of g sel = selected_records g sel.
Proof. apply filter_df_selected. Qed.

Lemma bar_fig_run (sel : selection) (g : globals) :
  fig_data (bar_fig (run fmean sel g)) =
  filter (λ m, selected (selected_of g sel) (m_SPA m))
    (average_table fmean (spa_geo g) (df g)).
Proof.
  unfold run. rewrite update_visuals_unfold. simpl.
  unfold filtered_geo_of. by rewrite filter_geo_selected, merged_of_spec.
Qed.

Lemma map_fig_run (sel : selection) (g : globals) :
  map_data (map_fig (run fmean sel g)) = fig_data (bar_fig (run fmean sel g)).
Proof. unfold run. by rewrite update_visuals_unfold. Qed.

Lemma map_geojson_run (sel : selection) (g : globals) :
  map_geojson (map_fig (run fmean sel g))
  = (λ m, (m_index m, m_geometry m)) <$> fig_data (bar_fig (run fmean sel g)).
Proof. unfold run. by rewrite update_visuals_unfold. Qed.

Lemma housing_fig_run (sel : selection) (g : globals) :
  fig_data (housing_type_bar_fig (run fmean sel g)) =
  group_housing fmean (selected_records g sel).
Proof.
  unfold run. rewrite update_visuals_unfold. simpl.
  by rewrite filtered_df_of_spec.
Qed.

Lemma bed_fig_run (sel : selection) (g : globals) :
  fig_data (bed_count_bar_fig (run fmean sel g)) =
  melt (bed_table (selected_records g sel)).
Proof.
  unfold run. rewrite update_visuals_unfold. simpl.
  by rewrite filtered_df_of_spec.
Qed.

Lemma selected_records_all (sel : selection) (g : globals) :
  Some "ALL" ∈ sel → selected_records g sel = df g.
Proof.
  intros Hall. rewrite <- filtered_df_of_spec.
  by apply filter_df_all.
Qed.

Lemma selected_records_nil (g : globals) : selected_records g [] = df g.
Proof. apply filter_all. intros r _. by left. Qed.

(** No name of [spa_dict] is the sentinel. *)
Lemma resolve_not_ALL (code : string) : resolve code ≠ Some "ALL".
Proof.
  unfold resolve, spa_dict. intros H%elem_of_list_to_map_2.
  repeat (apply elem_of_cons in H as [H|H]; [discriminate H|]).
  by apply elem_of_nil in H.
Qed.

Lemma df_load_SPA (csv : list (@bed_row float string))
    (geojson : list (@geo_row geometry string)) (x : option string) :
  x ∈ SPA <$> df (load csv geojson) → ∃ code, x = resolve code.
Proof.
  simpl. rewrite <- list_fmap_compose.
  intros (r & -> & _)%list_elem_of_fmap. by exists (SPA r).
Qed.

(** C9: for every Selection State that does not contain the "ALL"
    sentinel, the fifth output of the update is the Selection State it
    received, unchanged. *)
Theorem selection_echoed_unchanged (g : globals) (sel : selection) :
  Some "ALL" ∉ sel → dropdown_value (run fmean sel g) = sel.
Proof.
  intros Hall. rewrite dropdown_value_run. by apply expand_all_other.
Qed.

(** C2 (amended): for every selection list that contains the "ALL"
    sentinel, the fifth output is the list of the distinct region values
    of the Bed Records in their order of first appearance in the dataset
    (no sorting takes place), each of them once, and the sentinel is not
    among them. *)
Theorem select_all_writes_back_first_appearance_order
    (csv : list (@bed_row float string))
    (geojson : list (@geo_row geometry string)) (sel : selection) :
  Some "ALL" ∈ sel →
  let g := load csv geojson in
  let value := dropdown_value (run fmean sel g) in
  value = unique (SPA <$> df g)
  ∧ (Some "ALL" ∉ value)
  ∧ NoDup value
  ∧ (∀ x, x ∈ value ↔ ∃ r, r ∈ df g ∧ SPA r = x).
Proof.
  intros Hall g value.
  assert (value = unique (SPA <$> df g)) as Hv.
  { unfold value. rewrite dropdown_value_run. unfold selected_of, expand_all.
    by rewrite decide_True. }
  split; [done|]. rewrite Hv. split; [|split].
  - rewrite elem_of_unique. intros [code Hc]%df_load_SPA.
    by apply (resolve_not_ALL code).
  - apply NoDup_unique.
  - intros x. rewrite elem_of_unique, list_elem_of_fmap.
    split; intros (r & ? & ?); by exists r.
Qed.

(** C5: for the empty Selection State the update skips the filtering and
    every selection-dependent view is computed from the full dataset: the
    housing-type breakdown and the bed counts from all Bed Records, the
    region averages and the geo join without any restriction; a region
    with a record has its bed-count rows, the chart is not empty. *)
Theorem empty_selection_uses_full_dataset (g : globals) :
  let out := run fmean [] g in
  dropdown_value out = []
  ∧ filtered_df_of g [] = df g
  ∧ fig_data (housing_type_bar_fig out) = group_housing fmean (df g)
  ∧ fig_data (bed_count_bar_fig out) = melt (bed_table (df g))
  ∧ fig_data (bar_fig out) = merged_of fmean g
  ∧ map_data (map_fig out) = merged_of fmean g
  ∧ (∀ r region, r ∈ df g → SPA r = Some region →
       ∃ row, row ∈ fig_data (bed_count_bar_fig out) ∧ l_SPA row = region).
Proof.
  intros out. unfold out.
  rewrite dropdown_value_run, housing_fig_run, bed_fig_run, map_fig_run,
    bar_fig_run, filtered_df_of_spec, selected_records_nil, merged_of_spec.
  assert (selected_of g [] = []) as -> by done.
  repeat split; try done.
  - apply filter_all. intros m _. by left.
  - apply filter_all. intros m _. by left.
  - intros r region Hr HS.
    exists (MeltedRow region Utilized_Beds (utilized_beds (df g) region)).
    split; [|done]. unfold melt. apply elem_of_app. left.
    apply list_elem_of_fmap.
    exists (add_empty_beds
              (BedSumRow region (utilized_beds (df g) region)
                         (total_beds (df g) region))).
    split; [done|]. unfold bed_table. apply list_elem_of_fmap_2.
    unfold group_beds. apply list_elem_of_fmap.
    exists (region, records_of (df g) region). split; [done|].
    apply elem_of_groupby. simpl. eauto.
Qed.

(** In the store-passing model the callback only reads the globals. *)
Lemma update_visuals_reads_only (g : globals) (sel : selection)
    (earlier : list selection) :
  (update_visuals fmean sel g).2 = g
  ∧ (update_visuals fmean sel (exec fmean earlier g)).1
    = (update_visuals fmean sel g).1
  ∧ (update_visuals fmean sel (update_visuals fmean sel g).2)
    = update_visuals fmean sel g.
Proof.
  split; [apply update_visuals_globals|].
  split; [by rewrite exec_globals|].
  by rewrite update_visuals_globals.
Qed.

End Callback.

(** ** The bed-count view *)

Section BedCounts.
Context {geometry float : Type}.
Variable fmean : list float → float.

Abbreviation bed := (@bed_row float (option string)).
Abbreviation globals := (@globals geometry float).

(** The long form of lines 211-218, spelt out. *)
Lemma melt_bed_table (fd : list bed) :
  melt (bed_table fd) =
  ((λ k, MeltedRow k Utilized_Beds (utilized_beds fd k)) <$> regions_of fd)
  ++ ((λ k, MeltedRow k Empty_Beds (empty_beds fd k)) <$> regions_of fd).
Proof.
  unfold melt, bed_table, group_beds, groupby, regions_of.
  by rewrite <- !list_fmap_compose.
Qed.

Lemma elem_of_regions_of (fd : list bed) (region : string) :
  region ∈ regions_of fd ↔ ∃ r, r ∈ fd ∧ SPA r = Some region.
Proof.
  unfold regions_of. rewrite <- (groupby_keys String.le SPA).
  apply elem_of_groupby_keys.
Qed.

Lemma Sorted_regions_of (fd : list bed) : Sorted String.le (regions_of fd).
Proof. apply Sorted_merge_sort. apply _. Qed.

Lemma NoDup_regions_of (fd : list bed) : NoDup (regions_of fd).
Proof.
  unfold regions_of. rewrite merge_sort_Permutation. apply NoDup_unique.
Qed.

(** Bed sums of the records kept by a selection of a frame. *)
Lemma bed_table_filter (d : list bed) (S : selection) :
  bed_table (filter (λ r, isin S (SPA r)) d) =
  filter (λ c, Some (c_SPA c) ∈ S) (bed_table d).
Proof.
  unfold bed_table, group_beds.
  rewrite (groupby_filter String.le SPA _ (λ k, Some k ∈ S)).
  - by rewrite !filter_fmap.
  - intros r k Hr. unfold isin. by rewrite Hr.
Qed.

Lemma records_of_filter (d : list bed) (S : selection) (region : string) :
  Some region ∈ S →
  records_of (filter (λ r, isin S (SPA r)) d) region = records_of d region.
Proof.
  intros Hin. unfold records_of. apply list_filter_filter_l.
  intros r ->. done.
Qed.

(** C3: for every selection the bed-count view is the long form of the
    per-region sums over the selection-filtered Bed Records (all Bed
    Records when the sentinel is selected): one Utilized row per region
    with the sum of the PIT Counts, then one Empty row per region with
    total minus occupied, regions in increasing order, sums in the 64-bit
    integers of the columns.  A record with Total Beds = 100 and
    PIT Count = 80 adds 80 to the Utilized and 20 to the Empty count of its
    region, and shows as Utilized = 80, Empty = 20 when it is the only
    record of its region. *)
Theorem bed_counts_view (g : globals) (sel : selection) :
  let fd := selected_records g sel in
  let view := fig_data (bed_count_bar_fig (run fmean sel g)) in
  fd = filter_df (df g) (expand_all (df g) sel)
  ∧ (Some "ALL" ∈ sel → fd = df g)
  ∧ view =
      ((λ k, MeltedRow k Utilized_Beds (utilized_beds fd k)) <$> regions_of fd)
      ++ ((λ k, MeltedRow k Empty_Beds (empty_beds fd k)) <$> regions_of fd)
  ∧ (∀ region, region ∈ regions_of fd ↔ ∃ r, r ∈ fd ∧ SPA r = Some region)
  ∧ Sorted String.le (regions_of fd) ∧ NoDup (regions_of fd)
  ∧ (∀ region,
       utilized_beds fd region
         = wrap64 (foldr Z.add 0 (PIT_Count <$> records_of fd region))
       ∧ total_beds fd region
         = wrap64 (foldr Z.add 0 (Total_Beds <$> records_of fd region))
       ∧ empty_beds fd region
         = wrap64 (total_beds fd region - utilized_beds fd region))
  ∧ (∀ region,
       let occupied := foldr Z.add 0 (PIT_Count <$> records_of fd region) in
       let total := foldr Z.add 0 (Total_Beds <$> records_of fd region) in
       0 ≤ occupied ≤ total → total < 2 ^ 63 →
       utilized_beds fd region = occupied
       ∧ empty_beds fd region = total - occupied)
  ∧ (∀ (r : bed) region,
       PIT_Count r = 80 → Total_Beds r = 100 → records_of fd region = [r] →
       MeltedRow region Utilized_Beds 80 ∈ view
       ∧ MeltedRow region Empty_Beds 20 ∈ view)
  ∧ (∀ (r : bed) (d : list bed) region,
       PIT_Count r = 80 → Total_Beds r = 100 → SPA r = Some region →
       utilized_beds (r :: d) region = wrap64 (80 + utilized_beds d region)
       ∧ empty_beds (r :: d) region = wrap64 (20 + empty_beds d region)).
Proof.
  intros fd view.
  assert (view = melt (bed_table fd)) as Hview by apply bed_fig_run.
  rewrite melt_bed_table in Hview.
  split; [symmetry; apply filtered_df_of_spec|].
  split; [apply selected_records_all|].
  split; [done|].
  split; [apply elem_of_regions_of|].
  split; [apply Sorted_regions_of|].
  split; [apply NoDup_regions_of|].
  split; [done|]. split; [|split].
  - intros region occupied total Hocc Htot.
    unfold empty_beds, total_beds, utilized_beds, sub_int64, sum_int64.
    fold occupied total.
    rewrite (wrap64_small occupied), (wrap64_small total) by lia.
    rewrite wrap64_small by lia. done.
  - intros r region Hpit Htot Hrec.
    assert (region ∈ regions_of fd) as Hin.
    { apply elem_of_regions_of. exists r.
      assert (r ∈ records_of fd region) as Hr by (rewrite Hrec; left).
      apply list_elem_of_filter in Hr as [? ?]. done. }
    rewrite Hview. split.
    + apply elem_of_app. left. apply list_elem_of_fmap. exists region.
      split; [|done]. f_equal. unfold utilized_beds. rewrite Hrec. simpl.
      rewrite Hpit. reflexivity.
    + apply elem_of_app. right. apply list_elem_of_fmap. exists region.
      split; [|done]. f_equal.
      unfold empty_beds, total_beds, utilized_beds. rewrite Hrec. simpl.
      rewrite Hpit, Htot. reflexivity.
  - intros r d region Hpit Htot HS.
    assert (records_of (r :: d) region = r :: records_of d region) as Hrec.
    { unfold records_of. by rewrite filter_cons_True. }
    unfold empty_beds, total_beds, utilized_beds, sub_int64.
    rewrite Hrec, !fmap_cons, !sum_int64_cons, Hpit, Htot.
    split; [done|].
    rewrite wrap64_sub_wrap, wrap64_add_wrap_r.
    f_equal. lia.
Qed.

(** C4: for every non-empty selection S of region names, the per-region
    bed sums computed from the Bed Records filtered by S are the
    per-region bed sums of the full dataset restricted to the regions of
    S: the same rows, with the same totals for each region of S. *)
Theorem bed_counts_partition (g : globals) (S : selection) :
  S ≠ [] →
  (∀ x, x ∈ S → is_region_name x) →
  let filtered := filter_df (df g) S in
  fig_data (bed_count_bar_fig (run fmean S g)) = melt (bed_table filtered)
  ∧ bed_table filtered = filter (λ c, Some (c_SPA c) ∈ S) (bed_table (df g))
  ∧ (∀ region, Some region ∈ S →
       utilized_beds filtered region = utilized_beds (df g) region
       ∧ total_beds filtered region = total_beds (df g) region
       ∧ empty_beds filtered region = empty_beds (df g) region).
Proof.
  intros Hne Hnames filtered.
  assert (Some "ALL" ∉ S) as Hall.
  { intros (code & name & Hcode & [= <-])%Hnames.
    by apply (resolve_not_ALL code). }
  assert (filtered = filter (λ r, isin S (SPA r)) (df g)) as Hf.
  { unfold filtered, filter_df. by destruct S. }
  split; [|split].
  - rewrite bed_fig_run, <- filtered_df_of_spec.
    unfold filtered_df_of, selected_of. by rewrite expand_all_other.
  - rewrite Hf. apply bed_table_filter.
  - intros region Hin.
    unfold empty_beds, total_beds, utilized_beds.
    rewrite Hf, records_of_filter by done. done.
Qed.

End BedCounts.

(** ** The housing-type view *)

Lemma pair_le_total : Total pair_le.
Proof.
  intros a b. unfold pair_le.
  destruct (decide (a.1 = b.1)) as [Hab|Hab].
  - rewrite decide_True by done. apply (total String.le).
  - rewrite decide_False by done. apply (total String.le).
Qed.

Section Housing.
Context {geometry float : Type}.
Variable fmean : list float → float.

Abbreviation bed := (@bed_row float (option string)).
Abbreviation globals := (@globals geometry float).

Lemma housing_key_Some (r : bed) (region housing : string) :
  housing_key r = Some (region, housing)
  ↔ SPA r = Some region ∧ Housing_Type r = Some housing.
Proof.
  unfold housing_key. destruct (SPA r), (Housing_Type r); simpl;
    intuition congruence.
Qed.

Lemma group_housing_keys (fd : list bed) :
  (λ h, (h_SPA h, h_type h)) <$> group_housing fmean fd
  = (groupby pair_le housing_key fd).*1.
Proof.
  unfold group_housing. rewrite <- list_fmap_compose.
  apply list_fmap_ext. by intros _ [[??]?] _.
Qed.

Lemma elem_of_group_housing (fd : list bed) (h : housing_row) :
  h ∈ group_housing fmean fd ↔
  (∃ r, r ∈ fd ∧ SPA r = Some (h_SPA h) ∧ Housing_Type r = Some (h_type h))
  ∧ h_rate h
    = mean_skipna fmean (Utilization_Rate <$> pair_records fd (h_SPA h) (h_type h)).
Proof.
  assert (∀ region housing,
            filter (λ r : bed, housing_key r = Some (region, housing)) fd
            = pair_records fd region housing) as Hrec.
  { intros. apply list_filter_iff. intros r. apply housing_key_Some. }
  unfold group_housing. rewrite list_elem_of_fmap. split.
  - intros ([[region housing] rs] & -> & Hg).
    apply elem_of_groupby in Hg as [(r & Hr & Hk) Hrs]. simpl in *.
    apply housing_key_Some in Hk. split; [by exists r|].
    by rewrite Hrs, Hrec.
  - intros [(r & Hr & HS & HT) Hrate].
    exists ((h_SPA h, h_type h), pair_records fd (h_SPA h) (h_type h)). split.
    + destruct h as [s t v]. simpl in *. by rewrite Hrate.
    + apply elem_of_groupby. simpl. split; [|by rewrite Hrec].
      exists r. split; [done|]. by apply housing_key_Some.
Qed.

Lemma elem_of_group_housing_present (fd : list bed) (h : housing_row) :
  h ∈ group_housing fmean fd ↔
  (∃ r, r ∈ fd ∧ SPA r = Some (h_SPA h) ∧ Housing_Type r = Some (h_type h))
  ∧ h_rate h
    = mean_of_present fmean (rates_of (pair_records fd (h_SPA h) (h_type h))).
Proof. rewrite elem_of_group_housing. by rewrite mean_skipna_present. Qed.

(** C6: for every selection the housing-type view has one row per pair
    (region, housing type) present among the selection-filtered Bed
    Records, carrying the mean utilisation rate of the filtered records
    of that pair: [fmean] of the rates these records have, in record
    order, and a missing value when none of them has a rate; the rows come
    by increasing (region, housing type). *)
Theorem housing_type_view (g : globals) (sel : selection) :
  let fd := selected_records g sel in
  let view := fig_data (housing_type_bar_fig (run fmean sel g)) in
  fd = filter_df (df g) (expand_all (df g) sel)
  ∧ view = group_housing fmean fd
  ∧ (∀ h, h ∈ view ↔
       (∃ r, r ∈ fd ∧ SPA r = Some (h_SPA h) ∧ Housing_Type r = Some (h_type h))
       ∧ h_rate h
         = mean_of_present fmean
             (rates_of (pair_records fd (h_SPA h) (h_type h))))
  ∧ (∀ r region housing v rates,
       r ∈ fd → SPA r = Some region → Housing_Type r = Some housing →
       omap Utilization_Rate
         (filter (λ x, SPA x = Some region ∧ Housing_Type x = Some housing) fd)
       = v :: rates →
       HousingRow region housing (Some (fmean (v :: rates))) ∈ view)
  ∧ (∀ r region housing,
       r ∈ fd → SPA r = Some region → Housing_Type r = Some housing →
       omap Utilization_Rate
         (filter (λ x, SPA x = Some region ∧ Housing_Type x = Some housing) fd)
       = [] →
       HousingRow region housing None ∈ view)
  ∧ NoDup ((λ h, (h_SPA h, h_type h)) <$> view)
  ∧ Sorted pair_le ((λ h, (h_SPA h, h_type h)) <$> view).
Proof.
  intros fd view.
  assert (view = group_housing fmean fd) as -> by apply housing_fig_run.
  split; [symmetry; apply filtered_df_of_spec|].
  split; [done|].
  split; [apply elem_of_group_housing_present|].
  split; [|split].
  - intros r region housing v rates Hr HS HT Hrates.
    apply elem_of_group_housing_present. simpl. split; [by exists r|].
    unfold rates_of, pair_records. by rewrite Hrates.
  - intros r region housing Hr HS HT Hrates.
    apply elem_of_group_housing_present. simpl. split; [by exists r|].
    unfold rates_of, pair_records. by rewrite Hrates.
  - rewrite group_housing_keys. split.
    + apply NoDup_groupby_keys.
    + rewrite groupby_keys.
      apply (@Sorted_merge_sort _ pair_le _ pair_le_total).
Qed.

End Housing.

(** ** Region averages and the geo join *)

Section RegionAverages.
Context {geometry float : Type}.
Variable fmean : list float → float.

Abbreviation bed := (@bed_row float (option string)).
Abbreviation boundary := (@geo_row geometry (option string)).
Abbreviation globals := (@globals geometry float).

Lemma bar_rate (g : globals) (sel : selection) m :
  m ∈ fig_data (bar_fig (run fmean sel g)) →
  m_rate m = region_mean fmean (df g) (m_SPA m).
Proof.
  rewrite bar_fig_run, list_elem_of_filter, elem_of_average_table.
  intros [_ (i & b & _ & ->)]. done.
Qed.

Lemma bar_SPA_boundary (g : globals) (sel : selection) m :
  m ∈ fig_data (bar_fig (run fmean sel g)) →
  m_SPA m ∈ geo_SPA <$> spa_geo g.
Proof.
  rewrite bar_fig_run, list_elem_of_filter, elem_of_average_table.
  intros [_ (i & b & Hb & ->)]. simpl.
  apply list_elem_of_fmap_2. by eapply list_elem_of_lookup_2.
Qed.

Lemma bar_fig_full (g : globals) (sel : selection) :
  fig_data (bar_fig (run fmean sel g))
  = filter (λ m, selected (selected_of g sel) (m_SPA m))
      (full_dataset_table fmean (spa_geo g) (df g)).
Proof. by rewrite bar_fig_run, average_table_full. Qed.

Lemma elem_of_full_dataset_table (geo : list boundary) (d : list bed) m :
  m ∈ full_dataset_table fmean geo d ↔
  ∃ i b, geo !! i = Some b ∧
         m = MergedRow i (geo_SPA b) (geo_geometry b)
               (region ← geo_SPA b;
                mean_of_present fmean (rates_of (records_of d region))).
Proof.
  unfold full_dataset_table. rewrite elem_of_lookup_imap.
  split; intros (i & b & ? & ?); by exists i, b.
Qed.

(** C1: for every selection, the region-average view behind the map and
    the regional-average bar is read from one table that does not depend
    on the selection: one row per boundary, with the mean utilisation rate
    over ALL Bed Records of the boundary's region ([fmean] of the rates
    these records have, missing when they have none), which is what
    grouping all Bed Records by region and joining the boundaries gives.
    Only afterwards is the table restricted to the regions of the
    (expanded) selection: every boundary of a selected region is shown, with
    that rate, and a row shown under one selection is shown identically
    under every other selection that keeps its region. *)
Theorem region_averages_use_full_dataset (g : globals) (sel : selection) :
  let out := run fmean sel g in
  let shown := fig_data (bar_fig out) in
  let table := full_dataset_table fmean (spa_geo g) (df g) in
  map_data (map_fig out) = shown
  ∧ shown = filter (λ m, selected (selected_of g sel) (m_SPA m)) table
  ∧ merge_left (spa_geo g) (group_mean fmean (df g)) = table
  ∧ (∀ a, a ∈ group_mean fmean (df g) ↔
       (∃ r, r ∈ df g ∧ SPA r = Some (avg_SPA a))
       ∧ avg_rate a
         = mean_of_present fmean (rates_of (records_of (df g) (avg_SPA a))))
  ∧ (∀ i b, spa_geo g !! i = Some b →
       selected (selected_of g sel) (geo_SPA b) →
       ∃ m, m ∈ shown ∧ m_index m = i ∧ m_SPA m = geo_SPA b
            ∧ m_geometry m = geo_geometry b)
  ∧ (∀ m region v rates, m ∈ shown → m_SPA m = Some region →
       omap Utilization_Rate (filter (λ r, SPA r = Some region) (df g))
       = v :: rates →
       m_rate m = Some (fmean (v :: rates)))
  ∧ (∀ m region, m ∈ shown → m_SPA m = Some region →
       omap Utilization_Rate (filter (λ r, SPA r = Some region) (df g)) = [] →
       m_rate m = None)
  ∧ (∀ m, m ∈ shown → m_rate m = region_mean fmean (df g) (m_SPA m))
  ∧ (∀ sel' m m', m ∈ shown → m' ∈ fig_data (bar_fig (run fmean sel' g)) →
       m_SPA m = m_SPA m' → m_rate m = m_rate m')
  ∧ (∀ sel' m, m ∈ shown → selected (selected_of g sel') (m_SPA m) →
       m ∈ fig_data (bar_fig (run fmean sel' g))).
Proof.
  intros out shown table. unfold shown, out, table.
  assert (∀ m region, m ∈ fig_data (bar_fig (run fmean sel g)) →
            m_SPA m = Some region →
            m_rate m = mean_of_present fmean
                         (omap Utilization_Rate
                            (filter (λ r, SPA r = Some region) (df g))))
    as Hrate.
  { intros m region. rewrite bar_fig_full, list_elem_of_filter.
    rewrite elem_of_full_dataset_table.
    intros [_ (i & b & _ & ->)] HS. simpl in *. by rewrite HS. }
  split; [apply map_fig_run|].
  split; [apply bar_fig_full|].
  split; [by rewrite merge_left_group_mean, average_table_full|].
  split.
  { intros a. rewrite elem_of_group_mean. simpl.
    by rewrite mean_skipna_present. }
  split.
  { intros i b Hb Hsel.
    exists (MergedRow i (geo_SPA b) (geo_geometry b)
              (region ← geo_SPA b;
               mean_of_present fmean (rates_of (records_of (df g) region)))).
    split; [|done]. rewrite bar_fig_full, list_elem_of_filter.
    split; [done|]. apply elem_of_full_dataset_table. by exists i, b. }
  split.
  { intros m region v rates Hm HS Hrates.
    by rewrite (Hrate m region Hm HS), Hrates. }
  split.
  { intros m region Hm HS Hrates.
    by rewrite (Hrate m region Hm HS), Hrates. }
  split; [apply bar_rate|]. split.
  - intros sel' m m' Hm Hm' HS.
    rewrite (bar_rate g sel m Hm), (bar_rate g sel' m' Hm'). by rewrite HS.
  - intros sel' m. rewrite !bar_fig_run, !list_elem_of_filter. tauto.
Qed.

(** C10: the regional-average bar figure plots the geo-merged table, not
    the Bed Records: its rows are the boundary rows of the selected
    regions, in boundary order.  A region without a boundary row has no
    bar, records or not; a selected boundary region without Bed Records
    has its bar, with a missing utilisation rate. *)
Theorem bars_follow_the_boundaries (g : globals) (sel : selection) :
  let bars := fig_data (bar_fig (run fmean sel g)) in
  let chosen := selected (selected_of g sel) in
  bars = filter (λ m, chosen (m_SPA m))
           (merge_left (spa_geo g) (group_mean fmean (df g)))
  ∧ m_SPA <$> bars = filter chosen (geo_SPA <$> spa_geo g)
  ∧ (∀ region, Some region ∉ geo_SPA <$> spa_geo g →
       ∀ m, m ∈ bars → m_SPA m ≠ Some region)
  ∧ (∀ b region, b ∈ spa_geo g → geo_SPA b = Some region →
       chosen (Some region) → records_of (df g) region = [] →
       ∃ m, m ∈ bars ∧ m_SPA m = Some region
            ∧ m_geometry m = geo_geometry b ∧ m_rate m = None).
Proof.
  intros bars chosen. unfold bars, chosen.
  assert (m_SPA <$> fig_data (bar_fig (run fmean sel g))
          = filter (selected (selected_of g sel)) (geo_SPA <$> spa_geo g))
    as HSPA.
  { rewrite bar_fig_run, <- (average_table_SPA fmean (spa_geo g) (df g)).
    by rewrite filter_fmap. }
  split; [by rewrite bar_fig_run, merge_left_group_mean|].
  split; [done|]. split.
  - intros region Hno m Hm HS. apply Hno.
    assert (Some region ∈ m_SPA <$> fig_data (bar_fig (run fmean sel g))) as Hin.
    { rewrite <- HS. by apply list_elem_of_fmap_2. }
    rewrite HSPA in Hin. by apply list_elem_of_filter in Hin as [_ ?].
  - intros b region Hb HS Hsel Hrec.
    apply list_elem_of_lookup in Hb as [i Hi].
    exists (MergedRow i (geo_SPA b) (geo_geometry b)
              (region_mean fmean (df g) (geo_SPA b))).
    rewrite bar_fig_run, list_elem_of_filter, elem_of_average_table. simpl.
    rewrite HS. repeat split; [done|by exists i, b; rewrite HS|].
    simpl. by rewrite Hrec.
Qed.

End RegionAverages.

(** ** The Region Name Resolver *)

Section Resolver.
Context {geometry float : Type}.
Variable fmean : list float → float.

Abbreviation bed := (@bed_row float (option string)).
Abbreviation globals := (@globals geometry float).

Lemma resolve_outside (code : string) :
  code ∉ ["1"; "2"; "3"; "4"; "5"; "6"; "7"; "8"] → resolve code = None.
Proof. intros Hcode. by apply not_elem_of_list_to_map_1. Qed.

Lemma loaded_region_name (csv : list (@bed_row float string))
    (geojson : list (@geo_row geometry string)) (r : bed) (name : string) :
  r ∈ df (load csv geojson) → SPA r = Some name → is_region_name (Some name).
Proof.
  intros Hr HS.
  destruct (df_load_SPA csv geojson (SPA r)) as [code Hcode].
  { by apply list_elem_of_fmap_2. }
  exists code, name. split; [|done]. unfold resolve in Hcode. congruence.
Qed.

Lemma loaded_boundary_name (csv : list (@bed_row float string))
    (geojson : list (@geo_row geometry string)) (name : string) :
  Some name ∈ geo_SPA <$> spa_geo (load csv geojson) →
  is_region_name (Some name).
Proof.
  simpl. rewrite <- list_fmap_compose.
  intros (b & Hb & _)%list_elem_of_fmap. simpl in Hb.
  by exists (geo_SPA b), name.
Qed.

(** Dropping the rows with a code outside the table before loading is
    dropping the rows with a missing name after it. *)
Lemma df_load_resolved (csv : list (@bed_row float string))
    (geojson : list (@geo_row geometry string)) :
  df (load (filter resolved csv) geojson)
  = filter (λ r : bed, is_Some (SPA r)) (df (load csv geojson)).
Proof. simpl. by rewrite filter_fmap. Qed.

Lemma records_of_named (d : list bed) (region : string) :
  records_of (filter (λ r : bed, is_Some (SPA r)) d) region = records_of d region.
Proof.
  unfold records_of. apply list_filter_filter_l. intros r ->. by eexists.
Qed.

Lemma region_mean_named (d : list bed) (region : option string) :
  region_mean fmean (filter (λ r : bed, is_Some (SPA r)) d) region
  = region_mean fmean d region.
Proof. destruct region; simpl; [|done]. by rewrite records_of_named. Qed.

(** The named records kept by a selection do not depend on the records
    without a name. *)
Lemma filter_df_named (d : list bed) (sel : selection) :
  let named := filter (λ r : bed, is_Some (SPA r)) in
  named (filter_df d (expand_all d sel))
  = named (filter_df (named d) (expand_all (named d) sel)).
Proof.
  intros named. unfold named.
  destruct (decide (Some "ALL" ∈ sel)) as [Hall|Hall].
  - rewrite !filter_df_all by done.
    symmetry. by apply list_filter_filter_l.
  - rewrite !expand_all_other by done. rewrite !filter_df_selected.
    rewrite !list_filter_filter. apply list_filter_iff. intros r. tauto.
Qed.

Lemma group_mean_named (d : list bed) :
  group_mean fmean (filter (λ r : bed, is_Some (SPA r)) d) = group_mean fmean d.
Proof.
  unfold group_mean. rewrite groupby_filter_keyed; [done|].
  intros r k ->. by eexists.
Qed.

Lemma group_beds_named (d : list bed) :
  group_beds (filter (λ r : bed, is_Some (SPA r)) d) = group_beds d.
Proof.
  unfold group_beds. rewrite groupby_filter_keyed; [done|].
  intros r k ->. by eexists.
Qed.

Lemma group_housing_named (d : list bed) :
  group_housing fmean (filter (λ r : bed, is_Some (SPA r)) d)
  = group_housing fmean d.
Proof.
  unfold group_housing. rewrite groupby_filter_keyed; [done|].
  intros r [region housing] [-> _]%housing_key_Some. by eexists.
Qed.

(** C7 (amended): the Region Name Resolver maps the codes "1".."8" to
    their fixed names and every other code (such as "9") to a missing
    value.  Bed Records with such a code belong to no group: the region
    means, the housing-type view and the bed-count view are what they are
    without those records, and every row of these views, and every named
    row of the bar and map frame, bears one of the eight names.  A boundary
    row with such a code has no name and is joined to no mean; it is left
    out of the frame handed to the bar and to the map by every non-empty
    selection without a missing entry, and it is in that frame, polygon
    included, exactly when the (expanded) selection is empty or holds a
    missing value. *)
Theorem unresolved_codes_are_excluded :
  (resolve "1" = Some "Antelope Valley"
   ∧ resolve "2" = Some "San Fernando Valley"
   ∧ resolve "3" = Some "San Gabriel Valley"
   ∧ resolve "4" = Some "Metro Los Angeles"
   ∧ resolve "5" = Some "West Los Angeles"
   ∧ resolve "6" = Some "South Los Angeles"
   ∧ resolve "7" = Some "East Los Angeles"
   ∧ resolve "8" = Some "South Bay/Harbor")
  ∧ (∀ code, code ∉ ["1"; "2"; "3"; "4"; "5"; "6"; "7"; "8"] →
       resolve code = None)
  ∧ resolve "9" = None
  ∧ (∀ (csv : list (@bed_row float string))
       (geojson : list (@geo_row geometry string)) (sel : selection),
       let g := load csv geojson in
       let g' := load (filter resolved csv) geojson in
       let out := run fmean sel g in
       group_mean fmean (df g) = group_mean fmean (df g')
       ∧ fig_data (housing_type_bar_fig out)
         = fig_data (housing_type_bar_fig (run fmean sel g'))
       ∧ fig_data (bed_count_bar_fig out)
         = fig_data (bed_count_bar_fig (run fmean sel g'))
       ∧ (∀ a, a ∈ group_mean fmean (df g) → is_region_name (Some (avg_SPA a)))
       ∧ (∀ h, h ∈ fig_data (housing_type_bar_fig out) →
            is_region_name (Some (h_SPA h)))
       ∧ (∀ row, row ∈ fig_data (bed_count_bar_fig out) →
            is_region_name (Some (l_SPA row)))
       ∧ (∀ m, m ∈ fig_data (bar_fig out) →
            m_rate m
            = (region ← m_SPA m;
               mean_of_present fmean (rates_of (records_of (df g') region)))
            ∧ (∀ name, m_SPA m = Some name → is_region_name (Some name))
            ∧ (m_SPA m = None →
               m_rate m = None
               ∧ (selected_of g sel = [] ∨ None ∈ selected_of g sel)))
       ∧ (∀ i b, geojson !! i = Some b → resolve (geo_SPA b) = None →
            (MergedRow i None (geo_geometry b) None ∈ fig_data (bar_fig out)
             ↔ selected_of g sel = [] ∨ None ∈ selected_of g sel)
            ∧ ((i, geo_geometry b) ∈ map_geojson (map_fig out)
               ↔ selected_of g sel = [] ∨ None ∈ selected_of g sel))).
Proof.
  split; [by repeat split|].
  split; [apply resolve_outside|].
  split; [done|].
  intros csv geojson sel g g' out.
  assert (df g' = filter (λ r : bed, is_Some (SPA r)) (df g)) as Hdf'
    by apply df_load_resolved.
  assert (group_mean fmean (df g) = group_mean fmean (df g')) as Hmean.
  { by rewrite Hdf', group_mean_named. }
  assert (filter (λ r : bed, is_Some (SPA r)) (selected_records g sel)
          = filter (λ r : bed, is_Some (SPA r)) (selected_records g' sel))
    as Hfd.
  { rewrite <- !filtered_df_of_spec. unfold filtered_df_of, selected_of.
    rewrite Hdf'. apply filter_df_named. }
  unfold out. split; [done|]. split; [|split].
  - rewrite !housing_fig_run.
    rewrite <- (group_housing_named (selected_records g sel)), Hfd.
    apply group_housing_named.
  - rewrite !bed_fig_run. unfold bed_table.
    rewrite <- (group_beds_named (selected_records g sel)), Hfd.
    by rewrite group_beds_named.
  - split; [|split; [|split; [|split]]].
    + intros a [(r & Hr & HS) _]%elem_of_group_mean.
      by apply (loaded_region_name csv geojson r).
    + intros h. rewrite housing_fig_run.
      intros [(r & Hr & HS & _) _]%elem_of_group_housing.
      apply list_elem_of_filter in Hr as [_ Hr].
      by apply (loaded_region_name csv geojson r).
    + intros row. rewrite bed_fig_run, melt_bed_table, elem_of_app.
      rewrite !list_elem_of_fmap.
      assert (∀ k, k ∈ regions_of (selected_records g sel) →
                   is_region_name (Some k)) as Hk.
      { intros k (r & Hr & HS)%elem_of_regions_of.
        apply list_elem_of_filter in Hr as [_ Hr].
        by apply (loaded_region_name csv geojson r). }
      intros [(k & -> & Hin)|(k & -> & Hin)]; by apply Hk.
    + intros m Hm. split; [|split].
      * rewrite (bar_rate fmean g sel m Hm), Hdf'.
        destruct (m_SPA m) as [region|]; [|done]. simpl.
        rewrite records_of_named. apply mean_skipna_present.
      * intros name HS. apply (loaded_boundary_name csv geojson).
        rewrite <- HS.
        by apply (bar_SPA_boundary fmean g sel m).
      * intros HS. split.
        -- by rewrite (bar_rate fmean g sel m Hm), HS.
        -- rewrite bar_fig_run in Hm.
           apply list_elem_of_filter in Hm as [Hsel _].
           by rewrite HS in Hsel.
    + intros i b Hb Hnone.
      assert (spa_geo g !! i = Some (map_geo_SPA resolve b)) as Hi.
      { simpl. by rewrite list_lookup_fmap, Hb. }
      assert (∀ m, m ∈ fig_data (bar_fig (run fmean sel g)) → m_index m = i →
                   m = MergedRow i None (geo_geometry b) None
                   ∧ (selected_of g sel = [] ∨ None ∈ selected_of g sel))
        as Hrow.
      { intros m. rewrite bar_fig_full, list_elem_of_filter.
        rewrite elem_of_full_dataset_table.
        intros [Hsel (j & b' & Hb' & ->)] Hj. simpl in Hj. subst j.
        rewrite Hi in Hb'. injection Hb' as <-. simpl in *.
        rewrite Hnone in *. done. }
      assert (selected_of g sel = [] ∨ None ∈ selected_of g sel →
              MergedRow i None (geo_geometry b) None
                ∈ fig_data (bar_fig (run fmean sel g))) as Hin.
      { intros Hsel. rewrite bar_fig_full, list_elem_of_filter.
        split; [done|]. apply elem_of_full_dataset_table.
        exists i, (map_geo_SPA resolve b). split; [done|].
        simpl. by rewrite Hnone. }
      split; (split; [|]).
      * intros Hm. by apply (Hrow _ Hm).
      * done.
      * rewrite map_geojson_run.
        intros (m & [= Hidx _] & Hm)%list_elem_of_fmap.
        by apply (Hrow _ Hm).
      * intros Hsel. rewrite map_geojson_run. apply list_elem_of_fmap.
        eexists. split; [|by apply Hin]. done.
Qed.

End Resolver.

(** ** The statements on the sample data *)

(** The scenario of the specification: selecting A gives one bar, 85. *)
Example scenario_select_A :
  (λ m, (m_SPA m, m_rate m))
    <$> fig_data (bar_fig (run Sample.mean [Some "A"] Sample.scenario))
  = [(Some "A", Some (Sample.q 85))].
Proof. vm_compute. reflexivity. Qed.

(** Selecting the sentinel gives both bars and the explicit list. *)
Example scenario_select_ALL :
  let out := run Sample.mean [Some "ALL"] Sample.scenario in
  (λ m, (m_SPA m, m_rate m)) <$> fig_data (bar_fig out)
  = [(Some "A", Some (Sample.q 85)); (Some "B", Some (Sample.q 70))]
  ∧ dropdown_value out = [Some "A"; Some "B"].
Proof. vm_compute. split; reflexivity. Qed.

(** A record with an unknown code puts a missing entry in the list that is
    written back, and no row in the bed counts. *)
Example unknown_code_select_ALL :
  let out := run Sample.mean [Some "ALL"] Sample.g9 in
  dropdown_value out
  = [Some "San Fernando Valley"; Some "Antelope Valley";
     Some "Metro Los Angeles"; None]
  ∧ fig_data (bed_count_bar_fig out)
    = fig_data (bed_count_bar_fig (run Sample.mean [Some "ALL"] Sample.g0)).
Proof. vm_compute. split; reflexivity. Qed.

(** Region 3 has a boundary and no record: it is absent under the sentinel,
    which expands to the regions of the records, and present without a
    rate under the empty selection. *)
Example boundary_without_records :
  m_SPA <$> fig_data (bar_fig (run Sample.mean [Some "ALL"] Sample.g0))
  = [Some "Antelope Valley"; Some "San Fernando Valley"]
  ∧ (λ m, (m_SPA m, m_rate m))
      <$> fig_data (bar_fig (run Sample.mean [] Sample.g0))
    = [(Some "Antelope Valley", Some (Sample.q 80));
       (Some "San Fernando Valley",
        Some (Sample.mean [Sample.q 80; Sample.q 90; Sample.q 50]));
       (Some "San Gabriel Valley", None)].
Proof. vm_compute. split; reflexivity. Qed.

Lemma bed_counts_view_witness :
  records_of (selected_records Sample.g0 [Some "Antelope Valley"])
    "Antelope Valley" = [Sample.row1]
  ∧ MeltedRow "Antelope Valley" Utilized_Beds 80
      ∈ fig_data (bed_count_bar_fig
                    (run Sample.mean [Some "Antelope Valley"] Sample.g0))
  ∧ MeltedRow "Antelope Valley" Empty_Beds 20
      ∈ fig_data (bed_count_bar_fig
                    (run Sample.mean [Some "Antelope Valley"] Sample.g0)).
Proof.
  assert (records_of (selected_records Sample.g0 [Some "Antelope Valley"])
            "Antelope Valley" = [Sample.row1]) as Hrec
    by (vm_compute; reflexivity).
  split; [exact Hrec|].
  destruct (bed_counts_view Sample.mean Sample.g0 [Some "Antelope Valley"])
    as (_ & _ & _ & _ & _ & _ & _ & _ & Hone & _).
  exact (Hone Sample.row1 "Antelope Valley" eq_refl eq_refl Hrec).
Defined.

Lemma selection_echoed_unchanged_witness :
  (Some "ALL" ∉ [Some "San Fernando Valley"])
  ∧ dropdown_value (run Sample.mean [Some "San Fernando Valley"] Sample.g0)
    = [Some "San Fernando Valley"].
Proof.
  assert (Some "ALL" ∉ [Some "San Fernando Valley"]) as Hall.
  { apply (bool_decide_unpack _). vm_compute. exact I. }
  split; [exact Hall|].
  exact (selection_echoed_unchanged Sample.mean Sample.g0 _ Hall).
Defined.

Lemma select_all_writes_back_first_appearance_order_witness :
  Some "ALL" ∈ [Some "ALL"]
  ∧ dropdown_value (run Sample.mean [Some "ALL"] Sample.g0)
    = unique (SPA <$> df Sample.g0).
Proof.
  assert (Some "ALL" ∈ [Some "ALL"]) as Hall.
  { apply (bool_decide_unpack _). vm_compute. exact I. }
  split; [exact Hall|].
  exact (proj1 (select_all_writes_back_first_appearance_order
                  Sample.mean Sample.csv Sample.geojson _ Hall)).
Defined.

(** With region 2 before region 1 in the file, selecting the sentinel
    writes the names back in file order, which is not the sorted list. *)
Lemma select_all_not_sorted :
  Some "ALL" ∈ [Some "ALL"]
  ∧ dropdown_value (run Sample.mean [Some "ALL"] Sample.g0)
    = [Some "San Fernando Valley"; Some "Antelope Valley";
       Some "Metro Los Angeles"]
  ∧ sorted_region_names (df Sample.g0)
    = [Some "Antelope Valley"; Some "Metro Los Angeles";
       Some "San Fernando Valley"]
  ∧ dropdown_value (run Sample.mean [Some "ALL"] Sample.g0)
    ≠ sorted_region_names (df Sample.g0).
Proof.
  split; [apply (bool_decide_unpack _); vm_compute; exact I|].
  split; [vm_compute; reflexivity|].
  split; [vm_compute; reflexivity|].
  vm_compute. discriminate.
Qed.

Lemma bed_counts_partition_witness :
  [Some "San Fernando Valley"] ≠ []
  ∧ (∀ x, x ∈ [Some "San Fernando Valley"] → is_region_name x)
  ∧ bed_table (filter_df (df Sample.g0) [Some "San Fernando Valley"])
    = filter (λ c, Some (c_SPA c) ∈ [Some "San Fernando Valley"])
        (bed_table (df Sample.g0)).
Proof.
  assert ([Some "San Fernando Valley"] ≠ []) as Hne by discriminate.
  assert (∀ x, x ∈ [Some "San Fernando Valley"] → is_region_name x) as Hnames.
  { intros x Hx. apply list_elem_of_singleton in Hx. subst x.
    exists "2", "San Fernando Valley". split; reflexivity. }
  split; [exact Hne|]. split; [exact Hnames|].
  exact (proj1 (proj2 (bed_counts_partition Sample.mean Sample.g0 _ Hne Hnames))).
Defined.

(** * Further properties of the callback *)

(** ** How the outputs depend on the selection *)

Section Selections.
Context {geometry float : Type}.
Variable fmean : list float → float.

Abbreviation bed := (@bed_row float (option string)).
Abbreviation globals := (@globals geometry float).

(** The outputs are a function of the expanded selection. *)
Lemma run_selected_of (g : globals) (sel sel' : selection) :
  selected_of g sel = selected_of g sel' → run fmean sel g = run fmean sel' g.
Proof.
  intros Hsel. unfold run. rewrite !update_visuals_unfold. simpl.
  unfold filtered_geo_of, filtered_df_of. by rewrite Hsel.
Qed.

Lemma selected_of_idemp (g : globals) (sel : selection) :
  selected_of g (selected_of g sel) = selected_of g sel.
Proof.
  unfold selected_of, expand_all.
  destruct (decide (Some "ALL" ∈ sel)) as [Hall|Hall]; simpl.
  - by case_match.
  - by rewrite decide_False.
Qed.

Lemma selected_of_all (g : globals) (sel : selection) :
  Some "ALL" ∈ sel → selected_of g sel = unique (SPA <$> df g).
Proof. intros Hall. unfold selected_of, expand_all. by rewrite decide_True. Qed.

Lemma selected_same_elements (sel sel' : selection) :
  (∀ x, x ∈ sel ↔ x ∈ sel') →
  ∀ region, selected sel region ↔ selected sel' region.
Proof.
  intros Hsame region. unfold selected.
  assert (sel = [] ↔ sel' = []) as Hnil.
  { split; intros ->.
    - destruct sel' as [|x ?]; [done|].
      exfalso. eapply not_elem_of_nil, Hsame. left.
    - destruct sel as [|x ?]; [done|].
      exfalso. eapply not_elem_of_nil, Hsame. left. }
  rewrite Hnil, Hsame. done.
Qed.

Lemma figures_same_selected (g : globals) (sel sel' : selection) :
  (∀ region, selected (selected_of g sel) region
             ↔ selected (selected_of g sel') region) →
  map_fig (run fmean sel g) = map_fig (run fmean sel' g)
  ∧ bar_fig (run fmean sel g) = bar_fig (run fmean sel' g)
  ∧ housing_type_bar_fig (run fmean sel g)
    = housing_type_bar_fig (run fmean sel' g)
  ∧ bed_count_bar_fig (run fmean sel g) = bed_count_bar_fig (run fmean sel' g).
Proof.
  intros Hsel. unfold run. rewrite !update_visuals_unfold. simpl.
  assert (filtered_geo_of fmean g sel = filtered_geo_of fmean g sel') as ->.
  { unfold filtered_geo_of. rewrite !filter_geo_selected.
    apply list_filter_iff. intros m. apply Hsel. }
  assert (filtered_df_of g sel = filtered_df_of g sel') as ->.
  { unfold filtered_df_of. rewrite !filter_df_selected.
    apply list_filter_iff. intros r. apply Hsel. }
  done.
Qed.

(** X1: the value the callback writes back to the dropdown is a fixed
    point: invoked again with it, the callback returns the same five
    outputs. *)
Theorem written_back_value_is_stable (g : globals) (sel : selection) :
  run fmean (dropdown_value (run fmean sel g)) g = run fmean sel g.
Proof.
  apply run_selected_of. rewrite dropdown_value_run. apply selected_of_idemp.
Qed.

(** X2: the four figures depend on the selection as a set only: two
    selections with the same entries, in whatever order and multiplicity,
    give the same figures. *)
Theorem figures_ignore_order_and_repeats (g : globals) (sel sel' : selection) :
  (∀ x, x ∈ sel ↔ x ∈ sel') →
  map_fig (run fmean sel g) = map_fig (run fmean sel' g)
  ∧ bar_fig (run fmean sel g) = bar_fig (run fmean sel' g)
  ∧ housing_type_bar_fig (run fmean sel g)
    = housing_type_bar_fig (run fmean sel' g)
  ∧ bed_count_bar_fig (run fmean sel g) = bed_count_bar_fig (run fmean sel' g).
Proof.
  intros Hsame. apply figures_same_selected.
  destruct (decide (Some "ALL" ∈ sel)) as [Hall|Hall].
  - rewrite !selected_of_all by (done || by apply Hsame). done.
  - unfold selected_of. rewrite !expand_all_other by (done || by rewrite <- Hsame).
    by apply selected_same_elements.
Qed.

(** X3: once the sentinel is in the selection the other entries are
    ignored: the five outputs are those of the sentinel alone. *)
Theorem sentinel_overrides_other_entries (g : globals) (sel : selection) :
  Some "ALL" ∈ sel → run fmean sel g = run fmean [Some "ALL"] g.
Proof.
  intros Hall. apply run_selected_of.
  rewrite !selected_of_all; [done|left|done].
Qed.

(** X4: the sentinel and the empty selection agree on the housing-type
    and bed-count figures, not on the map and the regional bar: under the
    sentinel a boundary is kept only if its region value occurs among the
    Bed Records (all boundaries are kept when there is no record at all). *)
Theorem sentinel_against_empty_selection (g : globals) (sel : selection) :
  Some "ALL" ∈ sel →
  housing_type_bar_fig (run fmean sel g) = housing_type_bar_fig (run fmean [] g)
  ∧ bed_count_bar_fig (run fmean sel g) = bed_count_bar_fig (run fmean [] g)
  ∧ fig_data (bar_fig (run fmean sel g))
    = filter (λ m, df g = [] ∨ m_SPA m ∈ SPA <$> df g)
        (fig_data (bar_fig (run fmean [] g))).
Proof.
  intros Hall. unfold run. rewrite !update_visuals_unfold. simpl.
  assert (filtered_df_of g sel = filtered_df_of g []) as ->.
  { rewrite !filtered_df_of_spec, selected_records_nil.
    by apply selected_records_all. }
  split; [done|]. split; [done|].
  unfold filtered_geo_of. rewrite (selected_of_all g sel Hall).
  rewrite filter_geo_selected. simpl. apply list_filter_iff. intros m.
  unfold selected. rewrite elem_of_unique.
  split; (intros [Hnil|Hin]; [left|by right]).
  - destruct (df g); [done|discriminate Hnil].
  - by rewrite Hnil.
Qed.

(** X5: with a non-empty selection without the sentinel no figure shows a
    region that is not selected, and every selected region with a Bed
    Record has its two bed-count rows. *)
Theorem only_selected_regions_are_shown (g : globals) (sel : selection) :
  sel ≠ [] → Some "ALL" ∉ sel →
  let out := run fmean sel g in
  (∀ m, m ∈ fig_data (bar_fig out) → m_SPA m ∈ sel)
  ∧ (∀ m, m ∈ map_data (map_fig out) → m_SPA m ∈ sel)
  ∧ (∀ h, h ∈ fig_data (housing_type_bar_fig out) → Some (h_SPA h) ∈ sel)
  ∧ (∀ row, row ∈ fig_data (bed_count_bar_fig out) → Some (l_SPA row) ∈ sel)
  ∧ (∀ r region, r ∈ df g → SPA r = Some region → Some region ∈ sel →
       ∃ u e, MeltedRow region Utilized_Beds u ∈ fig_data (bed_count_bar_fig out)
              ∧ MeltedRow region Empty_Beds e ∈ fig_data (bed_count_bar_fig out)).
Proof.
  intros Hne Hall out. unfold out.
  assert (selected_of g sel = sel) as Hsel by by apply expand_all_other.
  assert (∀ x, selected sel x → x ∈ sel) as Hin by (by intros x [?|?]).
  assert (∀ r : bed, r ∈ selected_records g sel → SPA r ∈ sel) as Hrec.
  { intros r [Hr _]%list_elem_of_filter. rewrite Hsel in Hr. by apply Hin. }
  assert (∀ m, m ∈ fig_data (bar_fig (run fmean sel g)) → m_SPA m ∈ sel) as Hbar.
  { intros m. rewrite bar_fig_run, Hsel.
    intros [Hm _]%list_elem_of_filter. by apply Hin. }
  split; [done|]. split; [by rewrite map_fig_run|]. split; [|split].
  - intros h. rewrite housing_fig_run.
    intros [(r & Hr & HS & _) _]%elem_of_group_housing.
    rewrite <- HS. by apply Hrec.
  - intros row. rewrite bed_fig_run, melt_bed_table, elem_of_app.
    rewrite !list_elem_of_fmap.
    intros [(k & -> & (r & Hr & HS)%elem_of_regions_of)
           |(k & -> & (r & Hr & HS)%elem_of_regions_of)];
      simpl; rewrite <- HS; by apply Hrec.
  - intros r region Hr HS Hreg.
    assert (region ∈ regions_of (selected_records g sel)) as Hk.
    { apply elem_of_regions_of. exists r. split; [|done].
      apply list_elem_of_filter. split; [|done].
      rewrite Hsel, HS. by right. }
    eexists _, _. rewrite bed_fig_run, melt_bed_table, !elem_of_app.
    split; [left|right]; apply list_elem_of_fmap; by exists region.
Qed.

(** X6: a non-empty selection none of whose entries occurs in the data
    gives four empty frames, where the empty selection gives the full
    dataset. *)
Theorem unknown_selection_gives_empty_frames (g : globals) (sel : selection) :
  sel ≠ [] → Some "ALL" ∉ sel →
  (∀ x, x ∈ sel → x ∉ SPA <$> df g) →
  (∀ x, x ∈ sel → x ∉ geo_SPA <$> spa_geo g) →
  let out := run fmean sel g in
  map_data (map_fig out) = [] ∧ map_locations (map_fig out) = []
  ∧ fig_data (bar_fig out) = []
  ∧ fig_data (housing_type_bar_fig out) = []
  ∧ fig_data (bed_count_bar_fig out) = []
  ∧ dropdown_value out = sel.
Proof.
  intros Hne Hall Hdf Hgeo out. unfold out.
  assert (selected_of g sel = sel) as Hsel by by apply expand_all_other.
  assert (selected_records g sel = []) as Hrec.
  { apply filter_none. intros r Hr [Hnil|Hin]; rewrite Hsel in *; [done|].
    apply (Hdf _ Hin). by apply list_elem_of_fmap_2. }
  assert (fig_data (bar_fig (run fmean sel g)) = []) as Hbar.
  { rewrite bar_fig_run. apply filter_none.
    intros m Hm [Hnil|Hin]; rewrite Hsel in *; [done|].
    apply (Hgeo _ Hin). rewrite <- (average_table_SPA fmean _ (df g)).
    by apply list_elem_of_fmap_2. }
  assert (map_fig (run fmean sel g)
          = choropleth_mapbox (fig_data (bar_fig (run fmean sel g)))) as Hmap.
  { unfold run. by rewrite update_visuals_unfold. }
  rewrite Hmap, Hbar, housing_fig_run, bed_fig_run, Hrec, dropdown_value_run.
  done.
Qed.

End Selections.

(** ** The order of the two-key groups *)

Lemma pair_le_trans : Transitive pair_le.
Proof.
  intros a b c. unfold pair_le.
  destruct (decide (a.1 = b.1)) as [Hab|Hab],
           (decide (b.1 = c.1)) as [Hbc|Hbc]; intros H1 H2.
  - rewrite decide_True by congruence. by trans b.2.
  - rewrite decide_False by congruence. by rewrite Hab.
  - rewrite decide_False by congruence. by rewrite <- Hbc.
  - destruct (decide (a.1 = c.1)) as [Hac|Hac]; [|by trans b.1].
    destruct Hab. apply (anti_symm String.le); [done|]. by rewrite Hac.
Qed.

Lemma pair_le_anti_symm : AntiSymm (=) pair_le.
Proof.
  intros [a1 a2] [b1 b2]. unfold pair_le. simpl.
  destruct (decide (a1 = b1)) as [->|Hab].
  - rewrite decide_True by done. intros H1 H2. f_equal.
    by apply (anti_symm String.le).
  - rewrite decide_False by congruence. intros H1 H2.
    destruct Hab. by apply (anti_symm String.le).
Qed.

(** ** Restricting and growing the selection *)

Section Restriction.
Context {geometry float : Type}.
Variable fmean : list float → float.

Abbreviation bed := (@bed_row float (option string)).
Abbreviation globals := (@globals geometry float).

Lemma group_housing_filter (d : list bed) (S : selection) :
  group_housing fmean (filter (λ r, isin S (SPA r)) d)
  = filter (λ h, Some (h_SPA h) ∈ S) (group_housing fmean d).
Proof.
  unfold group_housing.
  pose proof pair_le_trans. pose proof pair_le_anti_symm.
  pose proof pair_le_total.
  rewrite (groupby_filter pair_le housing_key
             (λ r, isin S (SPA r)) (λ k, Some k.1 ∈ S)).
  - by rewrite !filter_fmap.
  - intros r [region housing] [HS _]%housing_key_Some.
    unfold isin. by rewrite HS.
Qed.

Lemma filter_df_nonempty (d : list bed) (S : selection) :
  S ≠ [] → filter_df d S = filter (λ r, isin S (SPA r)) d.
Proof. intros HS. unfold filter_df. by destruct S. Qed.

Lemma frames_of_selection (g : globals) (S : selection) :
  S ≠ [] → Some "ALL" ∉ S →
  fig_data (bar_fig (run fmean S g))
  = filter (λ m, m_SPA m ∈ S) (merged_of fmean g)
  ∧ fig_data (housing_type_bar_fig (run fmean S g))
    = filter (λ h, Some (h_SPA h) ∈ S) (group_housing fmean (df g))
  ∧ fig_data (bed_count_bar_fig (run fmean S g))
    = melt (filter (λ c, Some (c_SPA c) ∈ S) (bed_table (df g))).
Proof.
  intros Hne Hall. unfold run. rewrite update_visuals_unfold. simpl.
  unfold filtered_geo_of, filtered_df_of, selected_of.
  rewrite expand_all_other by done.
  rewrite filter_df_nonempty by done.
  rewrite group_housing_filter, bed_table_filter.
  split; [|done]. unfold filter_geo. by destruct S.
Qed.

(** X7: for a non-empty selection S without the sentinel the housing-type
    view is the housing-type view of the full dataset restricted to the
    regions of S: filtering the records first changes no mean and no order
    of the rows that remain. *)
Theorem housing_view_is_a_restriction (g : globals) (S : selection) :
  S ≠ [] → Some "ALL" ∉ S →
  fig_data (housing_type_bar_fig (run fmean S g))
  = filter (λ h, Some (h_SPA h) ∈ S) (group_housing fmean (df g)).
Proof. intros Hne Hall. by apply frames_of_selection. Qed.

Lemma melt_sublist (t t' : list bedcount_row) :
  t `sublist_of` t' → melt t `sublist_of` melt t'.
Proof.
  intros Ht. unfold melt. apply sublist_app; by apply fmap_sublist.
Qed.

Lemma filter_sublist_mono {A} (P Q : A → Prop)
    `{!∀ x, Decision (P x)} `{!∀ x, Decision (Q x)} (l : list A) :
  (∀ x, P x → Q x) → filter P l `sublist_of` filter Q l.
Proof.
  intros HPQ. rewrite <- (list_filter_filter_l P Q l HPQ).
  apply sublist_filter.
Qed.

(** X8: growing a selection only adds rows: when every entry of S is in
    S', the frames of the four figures for S are sub-sequences of the
    frames for S', so the rows already shown keep their values and their
    relative order. *)
Theorem growing_the_selection_adds_rows (g : globals) (S S' : selection) :
  S ≠ [] → Some "ALL" ∉ S → Some "ALL" ∉ S' → S ⊆ S' →
  map_data (map_fig (run fmean S g))
    `sublist_of` map_data (map_fig (run fmean S' g))
  ∧ fig_data (bar_fig (run fmean S g))
    `sublist_of` fig_data (bar_fig (run fmean S' g))
  ∧ fig_data (housing_type_bar_fig (run fmean S g))
    `sublist_of` fig_data (housing_type_bar_fig (run fmean S' g))
  ∧ fig_data (bed_count_bar_fig (run fmean S g))
    `sublist_of` fig_data (bed_count_bar_fig (run fmean S' g)).
Proof.
  intros Hne Hall Hall' Hsub.
  assert (S' ≠ []) as Hne'.
  { destruct S as [|x S]; [done|]. intros ->.
    eapply not_elem_of_nil, Hsub. left. }
  rewrite !map_fig_run.
  destruct (frames_of_selection g S Hne Hall) as (-> & -> & ->).
  destruct (frames_of_selection g S' Hne' Hall') as (-> & -> & ->).
  assert (∀ x, x ∈ S → x ∈ S') as Hin by (intros x; apply Hsub).
  split; [|split; [|split]].
  - apply filter_sublist_mono. intros m. apply Hin.
  - apply filter_sublist_mono. intros m. apply Hin.
  - apply filter_sublist_mono. intros h. apply Hin.
  - apply melt_sublist, filter_sublist_mono. intros c. apply Hin.
Qed.

End Restriction.

(** ** Groups partition the keyed rows *)

Lemma wrap64_add_wrap_l (a b : Z) : wrap64 (wrap64 a + b) = wrap64 (a + b).
Proof. by rewrite Z.add_comm, wrap64_add_wrap_r, Z.add_comm. Qed.

Lemma wrap64_idemp (a : Z) : wrap64 (wrap64 a) = wrap64 a.
Proof.
  rewrite <- (Z.add_0_l (wrap64 a)), wrap64_add_wrap_r. by rewrite Z.add_0_l.
Qed.

Section Sums.
Context {A : Type}.

Lemma Zsum_app (l l' : list Z) :
  foldr Z.add 0 (l ++ l') = foldr Z.add 0 l + foldr Z.add 0 l'.
Proof. induction l as [|z l IH]; simpl; [done|]. rewrite IH. lia. Qed.

Lemma Zsum_Permutation (l l' : list Z) :
  l ≡ₚ l' → foldr Z.add 0 l = foldr Z.add 0 l'.
Proof. induction 1; simpl; lia. Qed.

Lemma Zsum_mjoin (f : A → Z) (ls : list (list A)) :
  foldr Z.add 0 (f <$> mjoin ls)
  = foldr Z.add 0 ((λ l, foldr Z.add 0 (f <$> l)) <$> ls).
Proof.
  induction ls as [|l ls IH]; [done|].
  change (mjoin (l :: ls)) with (l ++ mjoin ls).
  rewrite fmap_cons. cbn [foldr].
  rewrite fmap_app, Zsum_app, IH. done.
Qed.

Lemma Zsum_sub (f h : A → Z) (l : list A) :
  foldr Z.add 0 ((λ x, f x - h x) <$> l)
  = foldr Z.add 0 (f <$> l) - foldr Z.add 0 (h <$> l).
Proof.
  induction l as [|x l IH]; [done|].
  rewrite !fmap_cons. cbn [foldr]. rewrite IH. lia.
Qed.

(** A wrapped sum of wrapped terms is the wrapped sum of the terms. *)
Lemma wrap64_Zsum_wrap (f : A → Z) (l : list A) :
  wrap64 (foldr Z.add 0 ((λ x, wrap64 (f x)) <$> l))
  = wrap64 (foldr Z.add 0 (f <$> l)).
Proof.
  induction l as [|x l IH]; [done|].
  rewrite !fmap_cons. cbn [foldr].
  rewrite wrap64_add_wrap_l.
  rewrite <- wrap64_add_wrap_r, IH, wrap64_add_wrap_r. done.
Qed.

End Sums.

Section Partition.
Context `{EqDecision K} {Row : Type} (key : Row → option K).

Lemma groups_cons_other (r : Row) (rows : list Row) (ks : list K) :
  (∀ k, k ∈ ks → key r ≠ Some k) →
  (λ k, filter (λ x, key x = Some k) (r :: rows)) <$> ks
  = (λ k, filter (λ x, key x = Some k) rows) <$> ks.
Proof.
  intros Hks. apply Forall_fmap_ext, Forall_forall. intros k Hk.
  apply filter_cons_False. by apply Hks.
Qed.

Lemma groups_cons_Permutation (r : Row) (k0 : K) (rows : list Row)
    (ks : list K) :
  key r = Some k0 → NoDup ks → k0 ∈ ks →
  mjoin ((λ k, filter (λ x, key x = Some k) (r :: rows)) <$> ks)
  ≡ₚ r :: mjoin ((λ k, filter (λ x, key x = Some k) rows) <$> ks).
Proof.
  intros Hr. induction ks as [|k ks IH]; intros Hnd Hin.
  - by apply elem_of_nil in Hin.
  - apply NoDup_cons in Hnd as [Hk Hnd]. rewrite !fmap_cons. simpl.
    destruct (decide (k = k0)) as [->|Hne].
    + rewrite filter_cons_True by done.
      rewrite groups_cons_other; [done|].
      intros k' Hk' Heq. rewrite Hr in Heq. by simplify_eq.
    + rewrite filter_cons_False by (rewrite Hr; congruence).
      rewrite IH; [|done|].
      * by rewrite Permutation_middle.
      * apply elem_of_cons in Hin as [?|?]; [congruence|done].
Qed.

Lemma groups_Permutation (ks : list K) (rows : list Row) :
  NoDup ks →
  (∀ r k, r ∈ rows → key r = Some k → k ∈ ks) →
  mjoin ((λ k, filter (λ x, key x = Some k) rows) <$> ks)
  ≡ₚ filter (λ r, is_Some (key r)) rows.
Proof.
  intros Hnd. induction rows as [|r rows IH]; intros Hks.
  - clear. induction ks as [|k ks IH]; [done|]. simpl. by rewrite IH.
  - destruct (key r) as [k0|] eqn:Hr.
    + rewrite (groups_cons_Permutation r k0);
        [|done|done|by eapply Hks; [left|]].
      rewrite filter_cons_True by (by rewrite Hr). f_equiv.
      apply IH. intros r' k Hr'. apply Hks. by right.
    + rewrite groups_cons_other by (intros k _; by rewrite Hr).
      rewrite filter_cons_False by (rewrite Hr; by intros [??]).
      apply IH. intros r' k Hr'. apply Hks. by right.
Qed.

(** The groups of a [groupby] hold every keyed row once. *)
Lemma groupby_Permutation (R : relation K) `{!RelDecision R} (rows : list Row) :
  mjoin ((groupby R key rows).*2) ≡ₚ filter (λ r, is_Some (key r)) rows.
Proof.
  unfold groupby. rewrite <- list_fmap_compose.
  apply groups_Permutation.
  - rewrite merge_sort_Permutation. apply NoDup_unique.
  - intros r k Hr Hk. rewrite merge_sort_Permutation, elem_of_unique.
    apply list_elem_of_omap. eauto.
Qed.

End Partition.

(** ** Totals of the bed-count view *)

Section BedTotals.
Context {geometry float : Type}.
Variable fmean : list float → float.

Abbreviation bed := (@bed_row float (option string)).
Abbreviation globals := (@globals geometry float).

Lemma regions_Permutation (fd : list bed) :
  mjoin (records_of fd <$> regions_of fd)
  ≡ₚ filter (λ r : bed, is_Some (SPA r)) fd.
Proof.
  rewrite <- (groupby_Permutation SPA String.le fd).
  unfold groupby, regions_of. by rewrite <- list_fmap_compose.
Qed.

(** Sum of a column over the regions, group by group. *)
Lemma Zsum_regions (f : bed → Z) (fd : list bed) :
  foldr Z.add 0 ((λ k, foldr Z.add 0 (f <$> records_of fd k)) <$> regions_of fd)
  = foldr Z.add 0 (f <$> filter (λ r : bed, is_Some (SPA r)) fd).
Proof.
  rewrite <- (Zsum_Permutation _ _ (fmap_Permutation f _ _ (regions_Permutation fd))).
  rewrite Zsum_mjoin, <- list_fmap_compose. done.
Qed.

Lemma melt_utilized (fd : list bed) :
  l_count <$> filter (λ row, l_status row = Utilized_Beds) (melt (bed_table fd))
  = utilized_beds fd <$> regions_of fd.
Proof.
  rewrite melt_bed_table, filter_app.
  rewrite filter_all, filter_none, app_nil_r.
  - by rewrite <- list_fmap_compose.
  - by intros row (k & -> & _)%list_elem_of_fmap.
  - by intros row (k & -> & _)%list_elem_of_fmap.
Qed.

Lemma melt_empty (fd : list bed) :
  l_count <$> filter (λ row, l_status row = Empty_Beds) (melt (bed_table fd))
  = empty_beds fd <$> regions_of fd.
Proof.
  rewrite melt_bed_table, filter_app.
  rewrite filter_none, filter_all, app_nil_l.
  - by rewrite <- list_fmap_compose.
  - by intros row (k & -> & _)%list_elem_of_fmap.
  - by intros row (k & -> & _)%list_elem_of_fmap.
Qed.

(** X9: grouping loses and repeats no bed: over the rows of the bed-count
    view, the Utilized counts add up to the PIT Counts of the named
    selection-filtered Bed Records, and the Empty counts to their Total
    Beds minus their PIT Counts (in the int64 arithmetic of the columns). *)
Theorem bed_count_totals_are_conserved (g : globals) (sel : selection) :
  let view := fig_data (bed_count_bar_fig (run fmean sel g)) in
  let named := filter (λ r : bed, is_Some (SPA r)) (selected_records g sel) in
  sum_int64 (l_count <$> filter (λ row, l_status row = Utilized_Beds) view)
  = sum_int64 (PIT_Count <$> named)
  ∧ sum_int64 (l_count <$> filter (λ row, l_status row = Empty_Beds) view)
    = sub_int64 (sum_int64 (Total_Beds <$> named))
                (sum_int64 (PIT_Count <$> named)).
Proof.
  intros view named. unfold view. rewrite bed_fig_run.
  rewrite melt_utilized, melt_empty. unfold sum_int64, sub_int64. split.
  - unfold utilized_beds, sum_int64.
    rewrite (wrap64_Zsum_wrap
               (λ k, foldr Z.add 0 (PIT_Count <$> records_of _ k))).
    by rewrite Zsum_regions.
  - rewrite wrap64_sub_wrap.
    unfold empty_beds, total_beds, utilized_beds, sub_int64, sum_int64.
    rewrite (list_fmap_ext _
               (λ k, wrap64 (foldr Z.add 0 (Total_Beds <$> records_of _ k)
                             - foldr Z.add 0 (PIT_Count <$> records_of _ k))))
      by (intros; apply wrap64_sub_wrap).
    rewrite (wrap64_Zsum_wrap
               (λ k, foldr Z.add 0 (Total_Beds <$> records_of _ k)
                     - foldr Z.add 0 (PIT_Count <$> records_of _ k))).
    rewrite (Zsum_sub
               (λ k, foldr Z.add 0 (Total_Beds <$> records_of _ k))
               (λ k, foldr Z.add 0 (PIT_Count <$> records_of _ k))).
    by rewrite !Zsum_regions.
Qed.

(** X10: the bed-count view has two rows per region, one for each status
    and no more, and for every region Utilized plus Empty is the sum of its
    Total Beds (int64 arithmetic). *)
Theorem bed_count_rows_per_region (g : globals) (sel : selection) :
  let fd := selected_records g sel in
  let view := fig_data (bed_count_bar_fig (run fmean sel g)) in
  length view = (2 * length (regions_of fd))%nat
  ∧ NoDup ((λ row, (l_SPA row, l_status row)) <$> view)
  ∧ (∀ region u e,
       MeltedRow region Utilized_Beds u ∈ view →
       MeltedRow region Empty_Beds e ∈ view →
       wrap64 (u + e) = total_beds fd region).
Proof.
  intros fd view. unfold view. rewrite bed_fig_run, melt_bed_table. fold fd.
  split; [|split].
  - rewrite length_app, !length_fmap. lia.
  - rewrite fmap_app, <- !list_fmap_compose. apply NoDup_app.
    split; [|split].
    + apply (NoDup_fmap_2 (λ k, (k, Utilized_Beds))), NoDup_regions_of.
    + intros x (k & -> & _)%list_elem_of_fmap (k' & [=] & _)%list_elem_of_fmap.
    + apply (NoDup_fmap_2 (λ k, (k, Empty_Beds))), NoDup_regions_of.
  - intros region u e. rewrite !elem_of_app, !list_elem_of_fmap.
    intros [(k & [= -> ->] & _)|(k & [=] & _)].
    intros [(k' & [=] & _)|(k' & [= -> ->] & _)].
    unfold empty_beds, sub_int64. rewrite wrap64_add_wrap_r.
    replace (utilized_beds fd k' + (total_beds fd k' - utilized_beds fd k'))
      with (total_beds fd k') by lia.
    unfold total_beds, sum_int64. apply wrap64_idemp.
Qed.

(** X11: nothing clamps the Empty count: when the records of a region
    report more occupied beds than beds (sums within int64), the Empty row
    of the region carries the negative difference. *)
Theorem over_occupied_region_has_negative_empty_beds
    (g : globals) (sel : selection) (region : string) :
  let fd := selected_records g sel in
  let occupied := foldr Z.add 0 (PIT_Count <$> records_of fd region) in
  let total := foldr Z.add 0 (Total_Beds <$> records_of fd region) in
  region ∈ regions_of fd →
  0 ≤ total < occupied → occupied < 2 ^ 62 →
  MeltedRow region Empty_Beds (total - occupied)
    ∈ fig_data (bed_count_bar_fig (run fmean sel g))
  ∧ total - occupied < 0.
Proof.
  intros fd occupied total Hin Hover Hrange. split; [|lia].
  rewrite bed_fig_run, melt_bed_table, elem_of_app. right.
  apply list_elem_of_fmap. exists region. split; [|done]. f_equal.
  unfold empty_beds, total_beds, utilized_beds, sub_int64, sum_int64.
  fold fd. fold occupied total.
  rewrite (wrap64_small occupied), (wrap64_small total) by lia.
  rewrite wrap64_small by lia. done.
Qed.

End BedTotals.

(** ** The map figure *)

Section MapFigure.
Context {geometry float : Type}.
Variable fmean : list float → float.

Abbreviation bed := (@bed_row float (option string)).
Abbreviation boundary := (@geo_row geometry (option string)).
Abbreviation globals := (@globals geometry float).

Lemma map_fig_run_spec (g : globals) (sel : selection) :
  map_fig (run fmean sel g)
  = choropleth_mapbox (fig_data (bar_fig (run fmean sel g))).
Proof. unfold run. by rewrite update_visuals_unfold. Qed.

(** Rows numbered by [imap] come by increasing number. *)
Lemma imap_index_sorted {A B} (idx : B → nat) (f : nat → A → B) (l : list A) :
  (∀ i a, idx (f i a) = i) →
  StronglySorted (λ x y, idx x < idx y)%nat (imap f l).
Proof.
  intros Hidx.
  cut (∀ n, StronglySorted (λ x y, idx x < idx y)%nat (imap (λ i, f (n + i)%nat) l)).
  { intros Hn. apply (Hn 0%nat). }
  induction l as [|a l IH]; intros n; [constructor|].
  simpl. constructor.
  - rewrite (imap_ext _ (λ i, f (S n + i)%nat)); [apply IH|].
    intros i x _. simpl. f_equal. lia.
  - apply Forall_forall. intros y (i & x & -> & _)%elem_of_lookup_imap.
    simpl. rewrite !Hidx. lia.
Qed.

Lemma average_table_sorted (geo : list boundary) (d : list bed) :
  StronglySorted (λ x y, m_index x < m_index y)%nat (average_table fmean geo d).
Proof. by apply imap_index_sorted. Qed.

Lemma average_table_length (geo : list boundary) (d : list bed) :
  length (average_table fmean geo d) = length geo.
Proof. unfold average_table. apply length_imap. Qed.

(** X12: the left join of line 126 keeps one row per boundary, and the map
    is drawn from consistent data: the locations are the feature ids of
    the geometries passed along, they come in increasing order without
    repetition, and location [i] stands for the geometry of the [i]-th
    boundary, present exactly when that boundary's region is selected. *)
Theorem map_locations_match_boundaries (g : globals) (sel : selection) :
  let fig := map_fig (run fmean sel g) in
  length (merged_of fmean g) = length (spa_geo g)
  ∧ map_locations fig = (map_geojson fig).*1
  ∧ StronglySorted lt (map_locations fig)
  ∧ (∀ i geom, (i, geom) ∈ map_geojson fig ↔
       ∃ b, spa_geo g !! i = Some b ∧ geo_geometry b = geom
            ∧ selected (selected_of g sel) (geo_SPA b)).
Proof.
  intros fig. unfold fig. rewrite map_fig_run_spec, bar_fig_run. simpl.
  split; [by rewrite merged_of_spec, average_table_length|].
  split; [by rewrite <- list_fmap_compose|]. split.
  - apply (StronglySorted_fmap m_index
             (λ x y, m_index x < m_index y)%nat lt); [done|].
    apply StronglySorted_filter, average_table_sorted.
  - intros i geom. rewrite list_elem_of_fmap. split.
    + intros (m & [= -> ->] & [Hsel Hm]%list_elem_of_filter).
      apply elem_of_average_table in Hm as (j & b & Hb & ->).
      by exists b.
    + intros (b & Hb & <- & Hsel).
      exists (MergedRow i (geo_SPA b) (geo_geometry b)
                (region_mean fmean (df g) (geo_SPA b))).
      split; [done|]. apply list_elem_of_filter. split; [done|].
      apply elem_of_average_table. by exists i, b.
Qed.

(** ** Records without a utilisation rate *)

Lemma mean_skipna_rated (rows : list bed) :
  mean_skipna fmean
    (Utilization_Rate <$> filter (λ r : bed, is_Some (Utilization_Rate r)) rows)
  = mean_skipna fmean (Utilization_Rate <$> rows).
Proof.
  unfold mean_skipna.
  assert (omap id (Utilization_Rate <$>
                     filter (λ r : bed, is_Some (Utilization_Rate r)) rows)
          = omap id (Utilization_Rate <$> rows)) as ->; [|done].
  induction rows as [|r rows IH]; [done|].
  rewrite filter_cons. destruct (decide (is_Some (Utilization_Rate r))) as [Hr|Hr].
  - rewrite !fmap_cons. csimpl. by rewrite IH.
  - rewrite IH, fmap_cons. csimpl.
    destruct (Utilization_Rate r); [|done]. destruct Hr. by eexists.
Qed.

Lemma region_mean_rated (d : list bed) (region : option string) :
  region_mean fmean (filter (λ r : bed, is_Some (Utilization_Rate r)) d) region
  = region_mean fmean d region.
Proof.
  destruct region as [k|]; [|done]. simpl. unfold records_of.
  assert (filter (λ r : bed, SPA r = Some k)
            (filter (λ r : bed, is_Some (Utilization_Rate r)) d)
          = filter (λ r : bed, is_Some (Utilization_Rate r))
              (filter (λ r : bed, SPA r = Some k) d)) as ->.
  { rewrite !list_filter_filter. apply list_filter_iff. intros r. tauto. }
  apply mean_skipna_rated.
Qed.

(** X13: Bed Records without a utilisation rate play no part in the
    region averages: with them removed from the dataset the joined table
    of line 126 is the same, and so are the map and the regional bar for
    every selection without the sentinel. *)
Theorem records_without_rate_leave_averages (g : globals) (sel : selection) :
  let rated :=
    Globals (filter (λ r : bed, is_Some (Utilization_Rate r)) (df g))
            (spa_geo g) in
  merged_of fmean rated = merged_of fmean g
  ∧ (Some "ALL" ∉ sel →
     bar_fig (run fmean sel rated) = bar_fig (run fmean sel g)
     ∧ map_fig (run fmean sel rated) = map_fig (run fmean sel g)).
Proof.
  intros rated.
  assert (merged_of fmean rated = merged_of fmean g) as Hm.
  { rewrite !merged_of_spec. unfold average_table. apply imap_ext.
    intros i b _. simpl. f_equal. apply region_mean_rated. }
  split; [done|]. intros Hall.
  unfold run. rewrite !update_visuals_unfold. simpl.
  unfold filtered_geo_of, selected_of. rewrite Hm.
  by rewrite !expand_all_other.
Qed.

End MapFigure.

(** ** The tables and the reading of the codes *)

Lemma spa_dict_entries (code name : string) :
  spa_dict !! code = Some name →
  (code, name) ∈ [ ("1", "Antelope Valley"); ("2", "San Fernando Valley");
                   ("3", "San Gabriel Valley"); ("4", "Metro Los Angeles");
                   ("5", "West Los Angeles"); ("6", "South Los Angeles");
                   ("7", "East Los Angeles"); ("8", "South Bay/Harbor") ].
Proof. apply elem_of_list_to_map_2. Qed.

Lemma color_mapping_entries (name color : string) :
  color_mapping !! name = Some color →
  (name, color) ∈ [ ("Antelope Valley", "#636EFA");
                    ("San Fernando Valley", "#EF553B");
                    ("San Gabriel Valley", "#00CC96");
                    ("Metro Los Angeles", "#AB63FA");
                    ("West Los Angeles", "#FFA15A");
                    ("South Los Angeles", "#19D3F3");
                    ("East Los Angeles", "#FF6692");
                    ("South Bay/Harbor", "#B6E880") ].
Proof. apply elem_of_list_to_map_2. Qed.

Ltac entries H :=
  repeat (apply elem_of_cons in H as [H|H]; [simplify_eq|]);
  [..|by apply elem_of_nil in H].

Lemma region_name_has_color (name : string) :
  is_region_name (Some name) → is_Some (color_mapping !! name).
Proof.
  intros (code & name' & H%spa_dict_entries & [= ->]).
  entries H; by eexists.
Qed.

Lemma color_mapping_inj (name name' color : string) :
  color_mapping !! name = Some color → color_mapping !! name' = Some color →
  name = name'.
Proof.
  intros H%color_mapping_entries H'%color_mapping_entries.
  entries H; entries H'; done.
Qed.

Section Tables.
Context {geometry float : Type}.
Variable fmean : list float → float.

Abbreviation globals := (@globals geometry float).

(** X14: for datasets loaded through the resolver every named region row
    handed to the map and to the regional bar has a colour in the colour
    map passed with it, and two different regions never get the same
    colour. *)
Theorem every_shown_region_has_its_color
    (csv : list (@bed_row float string))
    (geojson : list (@geo_row geometry string)) (sel : selection) :
  let out := run fmean sel (load csv geojson) in
  fig_color_discrete_map (bar_fig out) = Some color_mapping
  ∧ map_color_discrete_map (map_fig out) = color_mapping
  ∧ (∀ m name, m ∈ fig_data (bar_fig out) → m_SPA m = Some name →
       is_Some (color_mapping !! name))
  ∧ (∀ m name, m ∈ map_data (map_fig out) → m_SPA m = Some name →
       is_Some (color_mapping !! name))
  ∧ (∀ name name' color,
       color_mapping !! name = Some color →
       color_mapping !! name' = Some color → name = name').
Proof.
  intros out. unfold out.
  assert (∀ m name, m ∈ fig_data (bar_fig (run fmean sel (load csv geojson))) →
                    m_SPA m = Some name → is_Some (color_mapping !! name))
    as Hbar.
  { intros m name Hm HS. apply region_name_has_color.
    apply (loaded_boundary_name csv geojson). rewrite <- HS.
    by apply (bar_SPA_boundary fmean _ sel). }
  split; [|split; [|split; [done|split]]].
  - unfold run. by rewrite update_visuals_unfold.
  - unfold run. by rewrite update_visuals_unfold.
  - intros m name. rewrite map_fig_run. apply Hbar.
  - apply color_mapping_inj.
Qed.

(** X15: the resolver never merges two regions: codes with the same name
    are the same code, so two resolved rows of a file are grouped together
    exactly when they carry the same code. *)
Theorem resolver_is_injective :
  (∀ code code' name,
     resolve code = Some name → resolve code' = Some name → code = code')
  ∧ (∀ r r' : @bed_row float string,
       resolved r → resolved r' →
       (SPA (map_bed_SPA resolve r) = SPA (map_bed_SPA resolve r')
        ↔ SPA r = SPA r')).
Proof.
  assert (∀ code code' name,
            resolve code = Some name → resolve code' = Some name →
            code = code') as Hinj.
  { intros code code' name H%spa_dict_entries H'%spa_dict_entries.
    entries H; entries H'; done. }
  split; [done|]. intros r r' [name Hr] [name' Hr']. simpl. split.
  - intros Heq. apply (Hinj _ _ name); [done|]. by rewrite <- Heq.
  - by intros ->.
Qed.

(** X16: a code read as a whole number resolves to a region exactly when
    it lies between 1 and 8 ([astype(str)] prints it in decimal, which is
    how the keys of the table are written); a code read as text is looked
    up as it is. *)
Theorem integer_codes_resolve_from_1_to_8 :
  (∀ n : Z, is_Some (resolve (astype_str (IntCell n))) ↔ 1 ≤ n ≤ 8)
  ∧ (∀ s, resolve (astype_str (StrCell s)) = spa_dict !! s)
  ∧ (∀ (csv : list (@bed_row float cell))
       (geojson : list (@geo_row geometry cell)),
       SPA <$> df (read_files csv geojson)
       = (λ r, resolve (astype_str (SPA r))) <$> csv
       ∧ geo_SPA <$> spa_geo (read_files csv geojson)
         = (λ b, resolve (astype_str (geo_SPA b))) <$> geojson).
Proof.
  split; [|split; [done|]];
    [|intros csv geojson; simpl; by rewrite <- !list_fmap_compose].
  intros n. split.
  - intros [name H%spa_dict_entries]. simpl in H.
    assert (∀ u, u ≠ Decimal.zero →
                 DecimalString.NilZero.string_of_int (Z.to_int n)
                 = DecimalString.NilZero.string_of_uint u →
                 DecimalString.NilZero.uint_of_string
                   (DecimalString.NilZero.string_of_uint u) = Some u →
                 n = Z.of_int (Decimal.Pos u)) as Hdec.
    { intros u Hu0 Hs Hu. rewrite <- (DecimalZ.of_to n).
      destruct (Z.to_int n) as [d|d]; simpl in Hs.
      - destruct (DecimalString.NilZero.usu_gen d) as [Hd|Hd];
          rewrite Hs, Hu in Hd; injection Hd as Hd'; [by subst|done].
      - destruct u; discriminate Hs. }
    entries H.
    + by rewrite (Hdec (Decimal.D1 Decimal.Nil)).
    + by rewrite (Hdec (Decimal.D2 Decimal.Nil)).
    + by rewrite (Hdec (Decimal.D3 Decimal.Nil)).
    + by rewrite (Hdec (Decimal.D4 Decimal.Nil)).
    + by rewrite (Hdec (Decimal.D5 Decimal.Nil)).
    + by rewrite (Hdec (Decimal.D6 Decimal.Nil)).
    + by rewrite (Hdec (Decimal.D7 Decimal.Nil)).
    + by rewrite (Hdec (Decimal.D8 Decimal.Nil)).
  - intros Hn.
    assert (n = 1 ∨ n = 2 ∨ n = 3 ∨ n = 4 ∨ n = 5 ∨ n = 6 ∨ n = 7 ∨ n = 8)
      as Hcases by lia.
    destruct Hcases as [->|[->|[->|[->|[->|[->|[->| ->]]]]]]]; by eexists.
Qed.

End Tables.

(** ** The dropdown *)

Section Dropdown.
Context {geometry float : Type}.
Variable fmean : list float → float.

Abbreviation globals := (@globals geometry float).

Lemma dropdown_option_values (g : globals) :
  opt_value <$> dropdown_options g = Some "ALL" :: unique (SPA <$> df g).
Proof.
  unfold dropdown_options. rewrite fmap_app, <- list_fmap_compose. simpl.
  f_equal. apply list_fmap_id.
Qed.

(** X17: for a dataset loaded through the resolver the options of the
    dropdown have pairwise different values, the sentinel being the value
    of the first option only; their values are the sentinel and the region
    values of the Bed Records; and the value the callback writes back stays
    within the options whenever the value it received does. *)
Theorem dropdown_value_stays_within_options
    (csv : list (@bed_row float string))
    (geojson : list (@geo_row geometry string)) :
  let g := load csv geojson in
  let values := opt_value <$> dropdown_options g in
  NoDup values
  ∧ dropdown_options g !! 0%nat
    = Some (DropdownOption (Some "Select All") (Some "ALL"))
  ∧ (∀ x, x ∈ values ↔ x = Some "ALL" ∨ ∃ r, r ∈ df g ∧ SPA r = x)
  ∧ (∀ sel, (∀ x, x ∈ sel → x ∈ values) →
       ∀ x, x ∈ dropdown_value (run fmean sel g) → x ∈ values).
Proof.
  intros g values. unfold values. rewrite dropdown_option_values.
  split; [|split; [done|split]].
  - apply NoDup_cons. split; [|apply NoDup_unique].
    rewrite elem_of_unique. intros [code Hc]%df_load_SPA.
    by apply (resolve_not_ALL code).
  - intros x. rewrite elem_of_cons, elem_of_unique, list_elem_of_fmap.
    split; (intros [?|(r & ? & ?)]; [by left|right; by exists r]).
  - intros sel Hsel x. rewrite dropdown_value_run.
    unfold selected_of, expand_all.
    destruct (decide (Some "ALL" ∈ sel)); [by right|apply Hsel].
Qed.

(** X18: when the page is built the dropdown holds every region value of
    the Bed Records; the callback invoked with it returns what it returns
    for the sentinel: the value itself, and the housing-type and bed-count
    views of the full dataset. *)
Theorem first_invocation_shows_all_records (g : globals) :
  let out := run fmean (default_value g) g in
  out = run fmean [Some "ALL"] g
  ∧ dropdown_value out = default_value g
  ∧ fig_data (housing_type_bar_fig out) = group_housing fmean (df g)
  ∧ fig_data (bed_count_bar_fig out) = melt (bed_table (df g)).
Proof.
  intros out.
  assert (selected_of g (default_value g) = default_value g) as Hdef.
  { unfold selected_of, expand_all, default_value. by case_match. }
  assert (out = run fmean [Some "ALL"] g) as ->.
  { apply run_selected_of. rewrite Hdef. symmetry.
    apply selected_of_all. left. }
  split; [done|].
  rewrite dropdown_value_run, housing_fig_run, bed_fig_run.
  rewrite selected_records_all by left.
  split; [|done]. apply selected_of_all. left.
Qed.

End Dropdown.

(** ** The further properties on the sample data *)

Lemma figures_ignore_order_and_repeats_witness :
  (∀ x, x ∈ [Some "San Fernando Valley"; Some "Antelope Valley"]
        ↔ x ∈ [Some "Antelope Valley"; Some "San Fernando Valley";
               Some "Antelope Valley"])
  ∧ bar_fig (run Sample.mean
               [Some "San Fernando Valley"; Some "Antelope Valley"] Sample.g0)
    = bar_fig (run Sample.mean
                 [Some "Antelope Valley"; Some "San Fernando Valley";
                  Some "Antelope Valley"] Sample.g0).
Proof.
  assert (∀ x, x ∈ [Some "San Fernando Valley"; Some "Antelope Valley"]
               ↔ x ∈ [Some "Antelope Valley"; Some "San Fernando Valley";
                      Some "Antelope Valley"]) as Hsame.
  { intros x. rewrite !elem_of_cons, elem_of_nil. tauto. }
  split; [exact Hsame|].
  exact (proj1 (proj2 (figures_ignore_order_and_repeats
                         Sample.mean Sample.g0 _ _ Hsame))).
Defined.

Lemma sentinel_overrides_other_entries_witness :
  Some "ALL" ∈ [Some "Metro Los Angeles"; Some "ALL"]
  ∧ run Sample.mean [Some "Metro Los Angeles"; Some "ALL"] Sample.g0
    = run Sample.mean [Some "ALL"] Sample.g0.
Proof.
  assert (Some "ALL" ∈ [Some "Metro Los Angeles"; Some "ALL"]) as Hall.
  { apply (bool_decide_unpack _). vm_compute. exact I. }
  split; [exact Hall|].
  exact (sentinel_overrides_other_entries Sample.mean Sample.g0 _ Hall).
Defined.

Lemma sentinel_against_empty_selection_witness :
  Some "ALL" ∈ [Some "ALL"]
  ∧ bed_count_bar_fig (run Sample.mean [Some "ALL"] Sample.g0)
    = bed_count_bar_fig (run Sample.mean [] Sample.g0).
Proof.
  assert (Some "ALL" ∈ [Some "ALL"]) as Hall.
  { apply (bool_decide_unpack _). vm_compute. exact I. }
  split; [exact Hall|].
  exact (proj1 (proj2 (sentinel_against_empty_selection
                         Sample.mean Sample.g0 _ Hall))).
Defined.

Lemma only_selected_regions_are_shown_witness :
  [Some "San Fernando Valley"] ≠ []
  ∧ (Some "ALL" ∉ [Some "San Fernando Valley"])
  ∧ (∀ m, m ∈ fig_data (bar_fig (run Sample.mean
                                   [Some "San Fernando Valley"] Sample.g0)) →
          m_SPA m ∈ [Some "San Fernando Valley"]).
Proof.
  assert ([Some "San Fernando Valley"] ≠ []) as Hne by discriminate.
  assert (Some "ALL" ∉ [Some "San Fernando Valley"]) as Hall.
  { apply (bool_decide_unpack _). vm_compute. exact I. }
  split; [exact Hne|]. split; [exact Hall|].
  exact (proj1 (only_selected_regions_are_shown
                  Sample.mean Sample.g0 _ Hne Hall)).
Defined.

Lemma unknown_selection_gives_empty_frames_witness :
  [Some "Harbor"] ≠ []
  ∧ (Some "ALL" ∉ [Some "Harbor"])
  ∧ (∀ x, x ∈ [Some "Harbor"] → x ∉ SPA <$> df Sample.g0)
  ∧ (∀ x, x ∈ [Some "Harbor"] → x ∉ geo_SPA <$> spa_geo Sample.g0)
  ∧ fig_data (bed_count_bar_fig (run Sample.mean [Some "Harbor"] Sample.g0))
    = [].
Proof.
  assert ([Some "Harbor"] ≠ []) as Hne by discriminate.
  assert (Some "ALL" ∉ [Some "Harbor"]) as Hall.
  { apply (bool_decide_unpack _). vm_compute. exact I. }
  assert (∀ x, x ∈ [Some "Harbor"] → x ∉ SPA <$> df Sample.g0) as Hdf.
  { intros x Hx. apply list_elem_of_singleton in Hx. subst x.
    apply (bool_decide_unpack _). vm_compute. exact I. }
  assert (∀ x, x ∈ [Some "Harbor"] → x ∉ geo_SPA <$> spa_geo Sample.g0)
    as Hgeo.
  { intros x Hx. apply list_elem_of_singleton in Hx. subst x.
    apply (bool_decide_unpack _). vm_compute. exact I. }
  split; [exact Hne|]. split; [exact Hall|].
  split; [exact Hdf|]. split; [exact Hgeo|].
  exact (proj1 (proj2 (proj2 (proj2 (proj2
           (unknown_selection_gives_empty_frames
              Sample.mean Sample.g0 _ Hne Hall Hdf Hgeo)))))).
Defined.

Lemma housing_view_is_a_restriction_witness :
  [Some "San Fernando Valley"] ≠ []
  ∧ (Some "ALL" ∉ [Some "San Fernando Valley"])
  ∧ fig_data (housing_type_bar_fig
                (run Sample.mean [Some "San Fernando Valley"] Sample.g0))
    = filter (λ h, Some (h_SPA h) ∈ [Some "San Fernando Valley"])
        (group_housing Sample.mean (df Sample.g0)).
Proof.
  assert ([Some "San Fernando Valley"] ≠ []) as Hne by discriminate.
  assert (Some "ALL" ∉ [Some "San Fernando Valley"]) as Hall.
  { apply (bool_decide_unpack _). vm_compute. exact I. }
  split; [exact Hne|]. split; [exact Hall|].
  exact (housing_view_is_a_restriction Sample.mean Sample.g0 _ Hne Hall).
Defined.

Lemma growing_the_selection_adds_rows_witness :
  [Some "San Fernando Valley"] ≠ []
  ∧ (Some "ALL" ∉ [Some "San Fernando Valley"])
  ∧ (Some "ALL" ∉ [Some "Antelope Valley"; Some "San Fernando Valley"])
  ∧ [Some "San Fernando Valley"]
      ⊆ [Some "Antelope Valley"; Some "San Fernando Valley"]
  ∧ fig_data (bar_fig (run Sample.mean [Some "San Fernando Valley"] Sample.g0))
    `sublist_of`
    fig_data (bar_fig (run Sample.mean
                         [Some "Antelope Valley"; Some "San Fernando Valley"]
                         Sample.g0)).
Proof.
  assert ([Some "San Fernando Valley"] ≠ []) as Hne by discriminate.
  assert (Some "ALL" ∉ [Some "San Fernando Valley"]) as Hall.
  { apply (bool_decide_unpack _). vm_compute. exact I. }
  assert (Some "ALL" ∉ [Some "Antelope Valley"; Some "San Fernando Valley"])
    as Hall'.
  { apply (bool_decide_unpack _). vm_compute. exact I. }
  assert ([Some "San Fernando Valley"]
            ⊆ [Some "Antelope Valley"; Some "San Fernando Valley"]) as Hsub.
  { intros x Hx. apply list_elem_of_singleton in Hx. subst x.
    apply (bool_decide_unpack _). vm_compute. exact I. }
  split; [exact Hne|]. split; [exact Hall|].
  split; [exact Hall'|]. split; [exact Hsub|].
  exact (proj1 (proj2 (growing_the_selection_adds_rows
                         Sample.mean Sample.g0 _ _ Hne Hall Hall' Hsub))).
Defined.

Lemma over_occupied_region_has_negative_empty_beds_witness :
  "West Los Angeles" ∈ regions_of (selected_records Sample.crowded [])
  ∧ 0 ≤ 14 < 16 ∧ 16 < 2 ^ 62
  ∧ MeltedRow "West Los Angeles" Empty_Beds (-2)
      ∈ fig_data (bed_count_bar_fig (run Sample.mean [] Sample.crowded)).
Proof.
  assert ("West Los Angeles" ∈ regions_of (selected_records Sample.crowded []))
    as Hin.
  { apply (bool_decide_unpack _). vm_compute. exact I. }
  assert (0 ≤ 14 < 16) as Hover by lia.
  assert (16 < 2 ^ 62) as Hrange by lia.
  split; [exact Hin|]. split; [exact Hover|]. split; [exact Hrange|].
  exact (proj1 (over_occupied_region_has_negative_empty_beds
                  Sample.mean Sample.crowded [] "West Los Angeles"
                  Hin Hover Hrange)).
Defined.

(** * The callback over the heap *)

Section Heap.
Context {geometry float : Type}.
Variable fmean : list float → float.

Abbreviation bed := (@bed_row float (option string)).
Abbreviation globals := (@globals geometry float).
Abbreviation heap := (@heap geometry float).
Abbreviation frame := (@frame geometry float).
Abbreviation H := (@H geometry float).

Lemma H_bind_run {A B} (m : H A) (f : A → H B) (h h' : heap) (a : A) :
  m h = Some (a, h') → (m ≫= f) h = f a h'.
Proof. intros Hm. unfold mbind, H_bind. by rewrite Hm. Qed.

Lemma get_run (h : heap) (r : nat) (f : frame) :
  h !! r = Some f → get r h = Some (f, h).
Proof. intros Hr. unfold get. by rewrite Hr. Qed.

Lemma lookup_new (h : heap) (f : frame) : (h ++ [f]) !! length h = Some f.
Proof. by apply list_lookup_middle. Qed.

Lemma lookup_old (h : heap) (f x : frame) (r : nat) :
  h !! r = Some x → (h ++ [f]) !! r = Some x.
Proof. apply lookup_app_l_Some. Qed.

Lemma put_new (h : heap) (f x : frame) :
  put (length h) x (h ++ [f]) = Some ((), h ++ [x]).
Proof.
  unfold put. rewrite lookup_new.
  rewrite (insert_app_r_alt h [f] (length h)) by lia.
  by rewrite Nat.sub_diag.
Qed.

Lemma bed_rows_run (h : heap) (r : nat) rows :
  h !! r = Some (BedFrame rows) → bed_rows r h = Some (rows, h).
Proof. intros Hr. unfold bed_rows. by rewrite (H_bind_run _ _ _ _ _ (get_run _ _ _ Hr)). Qed.

Lemma geo_rows_run (h : heap) (r : nat) rows :
  h !! r = Some (GeoFrame rows) → geo_rows r h = Some (rows, h).
Proof. intros Hr. unfold geo_rows. by rewrite (H_bind_run _ _ _ _ _ (get_run _ _ _ Hr)). Qed.

Lemma avg_rows_run (h : heap) (r : nat) rows :
  h !! r = Some (AvgFrame rows) → avg_rows r h = Some (rows, h).
Proof. intros Hr. unfold avg_rows. by rewrite (H_bind_run _ _ _ _ _ (get_run _ _ _ Hr)). Qed.

Lemma merged_rows_run (h : heap) (r : nat) rows :
  h !! r = Some (MergedFrame rows) → merged_rows r h = Some (rows, h).
Proof. intros Hr. unfold merged_rows. by rewrite (H_bind_run _ _ _ _ _ (get_run _ _ _ Hr)). Qed.

Lemma housing_rows_run (h : heap) (r : nat) rows :
  h !! r = Some (HousingFrame rows) → housing_rows r h = Some (rows, h).
Proof. intros Hr. unfold housing_rows. by rewrite (H_bind_run _ _ _ _ _ (get_run _ _ _ Hr)). Qed.

Lemma melted_rows_run (h : heap) (r : nat) rows :
  h !! r = Some (MeltedFrame rows) → melted_rows r h = Some (rows, h).
Proof. intros Hr. unfold melted_rows. by rewrite (H_bind_run _ _ _ _ _ (get_run _ _ _ Hr)). Qed.

(** Lines 211-218 on a fresh object: the in-place assignment touches the
    new object only. *)
Lemma bed_counts_run (h : heap) (fd : nat) (rows : list (bed * option Z))
    {A} (k : nat → H A) :
  h !! fd = Some (BedFrame rows) →
  ((bed_rows fd ≫= λ d, new (SumFrame ((λ b, (b, None)) <$> group_beds d.*1)))
     ≫= λ bed_grouped,
       setitem_empty_beds bed_grouped ≫= λ _,
       rename_pit_count bed_grouped ≫= λ bed_grouped,
       melt_frame bed_grouped ≫= k) h
  = k (S (S (length h)))
      (h ++ [SumFrame ((λ b, (b, Some (sub_int64 (b_total b) (b_pit b))))
                         <$> group_beds rows.*1)]
         ++ [CountFrame ((λ b, (b, Some (sub_int64 (b_total b) (b_pit b))))
                           <$> group_beds rows.*1)]
         ++ [MeltedFrame (melt (bed_table rows.*1))]).
Proof.
  intros Hfd.
  erewrite H_bind_run;
    [|erewrite H_bind_run; [|by apply bed_rows_run]; reflexivity].
  erewrite H_bind_run; cycle 1.
  { unfold setitem_empty_beds.
    erewrite H_bind_run; [|apply get_run, lookup_new]. apply put_new. }
  rewrite <- list_fmap_compose.
  erewrite H_bind_run; cycle 1.
  { unfold rename_pit_count.
    erewrite H_bind_run; [|apply get_run, lookup_new]. reflexivity. }
  erewrite H_bind_run; cycle 1.
  { unfold melt_frame.
    erewrite H_bind_run; [|apply get_run, lookup_new].
    assert (mapM (λ x : bedsum_row * option Z,
                    e ← x.2;
                    Some (BedCountRow (b_SPA x.1) (b_pit x.1) (b_total x.1) e))
              (((λ x : bedsum_row * option Z,
                   (x.1, Some (sub_int64 (b_total x.1) (b_pit x.1))))
                ∘ (λ b, (b, None))) <$> group_beds rows.*1)
            = Some (bed_table rows.*1)) as Hmap; cycle 1.
    { lazy beta iota. rewrite Hmap. reflexivity. }
    apply mapM_Some. unfold bed_table. rewrite Forall2_fmap.
    apply Forall_Forall2_diag, Forall_forall. by intros b _. }
  rewrite !length_app. simpl. rewrite <- !(assoc_L (++)).
  replace (length h + 1 + 1)%nat with (S (S (length h))) by lia.
  reflexivity.
Qed.

Lemma lookup_third (h : heap) (a b c : frame) :
  (h ++ [a] ++ [b] ++ [c]) !! S (S (length h)) = Some c.
Proof.
  rewrite lookup_app_r by lia.
  by replace (S (S (length h)) - length h)%nat with 2%nat by lia.
Qed.

Lemma untagged_rows (d : list bed) :
  ((λ r : bed, (r, @None Z)) <$> d).*1 = d.
Proof. rewrite <- list_fmap_compose. apply list_fmap_id. Qed.

Lemma untagged_filter (P : bed → Prop) `{!∀ r, Decision (P r)} (d : list bed) :
  (filter (λ x : bed * option Z, P x.1) ((λ r : bed, (r, @None Z)) <$> d)).*1
  = filter P d.
Proof. by rewrite <- filter_fmap, untagged_rows. Qed.

Ltac solve_lookup :=
  repeat first [ eassumption | apply lookup_new | apply lookup_old ].

Ltac run_step tac :=
  erewrite H_bind_run; [|tac].

Ltac run_read lem :=
  erewrite H_bind_run; [|apply lem; solve_lookup].

(** The callback over the heap returns the outputs of [run] and only adds
    objects to the heap. *)
Lemma update_visuals_heap_run (g : globals) (sel : selection) (h : heap) :
  holds_datasets g h →
  ∃ objs, update_visuals_heap fmean 0 1 sel h
          = Some (run fmean sel g, h ++ objs).
Proof.
  intros [Hdf Hgeo]. unfold update_visuals_heap.
  assert ((if decide (Some "ALL" ∈ sel)
           then bed_rows 0 ≫= λ d, mret (unique (SPA <$> d.*1))
           else mret sel) h = Some (selected_of g sel, h)) as Hsel.
  { unfold selected_of, expand_all. destruct (decide (Some "ALL" ∈ sel)).
    - run_read bed_rows_run. by rewrite untagged_rows.
    - done. }
  run_step ltac:(exact Hsel). clear Hsel.
  unfold run. rewrite update_visuals_unfold. simpl.
  unfold filtered_geo_of, filtered_df_of, merged_of.
  destruct (selected_of g sel) as [|x chosen]; simpl truthy; lazy beta iota.
  - run_step ltac:(exact eq_refl).
    run_step ltac:(run_read bed_rows_run; exact eq_refl).
    run_step ltac:(run_read geo_rows_run; run_read avg_rows_run; exact eq_refl).
    run_step ltac:(exact eq_refl).
    run_step ltac:(run_read merged_rows_run; exact eq_refl).
    run_step ltac:(run_read merged_rows_run; exact eq_refl).
    run_step ltac:(run_read bed_rows_run; exact eq_refl).
    run_step ltac:(run_read housing_rows_run; exact eq_refl).
    erewrite bed_counts_run by solve_lookup.
    run_step ltac:(run_step ltac:(apply melted_rows_run, lookup_third);
                   exact eq_refl).
    rewrite !untagged_rows, <- !(assoc_L (++)).
    eexists. exact eq_refl.
  - run_step ltac:(run_read bed_rows_run; exact eq_refl).
    run_step ltac:(run_read bed_rows_run; exact eq_refl).
    run_step ltac:(run_read geo_rows_run; run_read avg_rows_run; exact eq_refl).
    run_step ltac:(run_read merged_rows_run; exact eq_refl).
    run_step ltac:(run_read merged_rows_run; exact eq_refl).
    run_step ltac:(run_read merged_rows_run; exact eq_refl).
    run_step ltac:(run_read bed_rows_run; exact eq_refl).
    run_step ltac:(run_read housing_rows_run; exact eq_refl).
    erewrite bed_counts_run by solve_lookup.
    run_step ltac:(run_step ltac:(apply melted_rows_run, lookup_third);
                   exact eq_refl).
    rewrite !untagged_rows, <- !(assoc_L (++)).
    assert ((filter (λ x0 : bed * option Z, isin (x :: chosen) (SPA x0.1))
               ((λ r : bed, (r, None)) <$> df g)).*1
            = filter_df (df g) (x :: chosen)) as ->.
    { unfold filter_df. simpl truthy. lazy beta iota.
      exact (untagged_filter (λ r, isin (x :: chosen) (SPA r)) (df g)). }
    eexists. exact eq_refl.
Qed.

Lemma holds_datasets_app (g : globals) (h objs : heap) :
  holds_datasets g h → holds_datasets g (h ++ objs).
Proof. intros [Hdf Hgeo]. split; by apply lookup_app_l_Some. Qed.

Lemma holds_datasets_heap_of (g : globals) : holds_datasets g (heap_of g).
Proof. by split. Qed.

(** C8: the update is a function of the Selection State and of the loaded
    datasets, and it leaves the datasets as they are.  Over the heap,
    where [filtered_df] may be the very object [df] and line 212 assigns a
    column in place: from any heap holding the loaded datasets behind the
    names [df] and [spa_geo] an invocation raises nothing, returns the
    five outputs that [run] computes from the Selection State and the
    datasets alone, and leaves the two objects as they were; so a second
    invocation with the same Selection State returns identical figures and
    an identical control value. *)
Theorem update_is_deterministic (g : globals) (sel : selection) (h : heap) :
  holds_datasets g h →
  ∃ out h1 h2,
    update_visuals_heap fmean 0 1 sel h = Some (out, h1)
    ∧ update_visuals_heap fmean 0 1 sel h1 = Some (out, h2)
    ∧ out = run fmean sel g
    ∧ holds_datasets g h1 ∧ holds_datasets g h2
    ∧ h1 !! 0%nat = h !! 0%nat ∧ h1 !! 1%nat = h !! 1%nat.
Proof.
  intros Hh.
  destruct (update_visuals_heap_run g sel h Hh) as [objs Hrun].
  pose proof (holds_datasets_app g h objs Hh) as Hh1.
  destruct (update_visuals_heap_run g sel (h ++ objs) Hh1) as [objs' Hrun'].
  exists (run fmean sel g), (h ++ objs), ((h ++ objs) ++ objs').
  split; [done|]. split; [done|]. split; [done|]. split; [done|].
  split; [by apply holds_datasets_app|].
  destruct Hh as [Hdf Hgeo], Hh1 as [Hdf1 Hgeo1]. split; congruence.
Qed.

End Heap.

(** ** Unnamed boundaries and the heap on the sample data *)

(** A boundary with code "9" is in the frame handed to the bar and to the
    map, polygon included, under the empty selection, and under the
    sentinel when a Bed Record has an unknown code too. *)
Lemma unnamed_boundary_is_handed_to_the_map :
  resolve "9" = None
  ∧ m_SPA <$> fig_data (bar_fig (run Sample.mean []
                                   (load Sample.csv Sample.geojson9)))
    = [Some "Antelope Valley"; Some "San Fernando Valley";
       Some "San Gabriel Valley"; None]
  ∧ map_geojson (map_fig (run Sample.mean []
                            (load Sample.csv Sample.geojson9)))
    = [(0%nat, "polygon 1"); (1%nat, "polygon 2"); (2%nat, "polygon 3");
       (3%nat, "polygon 9")]
  ∧ map_geojson (map_fig (run Sample.mean [Some "ALL"]
                            (load Sample.csv9 Sample.geojson9)))
    = [(0%nat, "polygon 1"); (1%nat, "polygon 2"); (3%nat, "polygon 9")].
Proof. vm_compute. repeat split; reflexivity. Qed.

(** Assigning the column through a name that holds the reference of [df]
    changes the object every holder of the reference sees. *)
Example assignment_through_an_alias_changes_df :
  ∃ h, setitem_empty_beds 0 (heap_of Sample.g0) = Some ((), h)
       ∧ h !! 0%nat ≠ heap_of Sample.g0 !! 0%nat
       ∧ ¬ holds_datasets Sample.g0 h.
Proof.
  eexists. split; [vm_compute; reflexivity|]. split.
  - vm_compute. discriminate.
  - intros [Hdf _]. vm_compute in Hdf. discriminate Hdf.
Qed.

Lemma update_is_deterministic_witness :
  holds_datasets Sample.g0 (heap_of Sample.g0)
  ∧ ∃ out h1 h2,
      update_visuals_heap Sample.mean 0 1 [] (heap_of Sample.g0)
      = Some (out, h1)
      ∧ update_visuals_heap Sample.mean 0 1 [] h1 = Some (out, h2)
      ∧ out = run Sample.mean [] Sample.g0
      ∧ holds_datasets Sample.g0 h1 ∧ holds_datasets Sample.g0 h2
      ∧ h1 !! 0%nat = heap_of Sample.g0 !! 0%nat
      ∧ h1 !! 1%nat = heap_of Sample.g0 !! 1%nat.
Proof.
  assert (holds_datasets Sample.g0 (heap_of Sample.g0)) as Hh.
  { split; reflexivity. }
  split; [exact Hh|].
  exact (update_is_deterministic Sample.mean Sample.g0 [] _ Hh).
Defined.
